(** * pers: a persistent key/value daemon behind two named pipes

    Shallow embedding of [src/pers.cpp]: the liveness check
    [is_daemon_running], the serving loop of [daemon_main] with its
    command processor, and the client call [send_request].

    [std::string] is a Rocq [string] (a sequence of 8-bit characters),
    [std::unordered_map<std::string, std::string>] is a [gmap string string],
    [size_t] and [int] are [Z] with their wrap-around written out, and a
    C++ exception that nobody catches is the [Throw] case of [result]. *)

From Stdlib Require Import ZArith Ascii String List Lia Bool.
From stdpp Require Import base tactics option gmap strings pretty.

Local Open Scope string_scope.
Local Open Scope Z_scope.

(** ** Exceptions *)

Inductive exn := out_of_range.

Inductive result (A : Type) :=
| Ok (a : A)
| Throw (e : exn).
Arguments Ok {A} a.
Arguments Throw {A} e.

Global Instance result_ret : MRet result := fun A a => Ok a.

Global Instance result_bind : MBind result := fun A B k r =>
  match r with
  | Ok a => k a
  | Throw e => Throw e
  end.

(** ** [std::string] *)

Module StdString.

Definition NUL : ascii := "000"%char.
Definition TAB : ascii := "009"%char.
Definition LF : ascii := "010"%char.
Definition VT : ascii := "011"%char.
Definition FF : ascii := "012"%char.
Definition CR : ascii := "013"%char.
Definition SP : ascii := " "%char.

(** The newline as a one-character string, for ["...\n"] literals. *)
Definition nl : string := String LF "".

(** The first [n] characters (all of [s] when it is shorter), and the
    rest; counts are [Z], as [size_t] values reach [2 ^ 64 - 1]. *)
Fixpoint take (n : Z) (s : string) : string :=
  match s with
  | "" => ""
  | String c s' => if n <=? 0 then "" else String c (take (n - 1) s')
  end.

Fixpoint drop (n : Z) (s : string) : string :=
  match s with
  | "" => ""
  | String _ s' => if n <=? 0 then s else drop (n - 1) s'
  end.

(** [size_t] is 64 bits wide; [npos] is its largest value. *)
Definition size_t_wrap (z : Z) : Z := z mod 2 ^ 64.
Definition npos : Z := 2 ^ 64 - 1.

(** [s.substr(pos, n)]: throws [std::out_of_range] when [pos > size()],
    and otherwise copies at most [n] characters from [pos]. *)
Definition substr (s : string) (pos n : Z) : result string :=
  if Z.of_nat (String.length s) <? pos then Throw out_of_range
  else Ok (take n (drop pos s)).

(** [s.substr(pos)], the count defaulting to [npos]. *)
Definition substr_from (s : string) (pos : Z) : result string :=
  substr s pos npos.

(** [s.erase(pos)]: throws when [pos > size()], else keeps the first
    [pos] characters. *)
Definition erase (s : string) (pos : Z) : result string :=
  if Z.of_nat (String.length s) <? pos then Throw out_of_range
  else Ok (take pos s).

Fixpoint mem (c : ascii) (set : string) : bool :=
  match set with
  | "" => false
  | String x set' => Ascii.eqb c x || mem c set'
  end.

(** Index of the last character of [s] that is not in [set], if any. *)
Fixpoint last_not_of (s set : string) : option nat :=
  match s with
  | "" => None
  | String c s' =>
      match last_not_of s' set with
      | Some i => Some (S i)
      | None => if mem c set then None else Some O
      end
  end.

(** [s.find_last_not_of(set)], a [size_t]: [npos] when every character
    of [s] is in [set]. *)
Definition find_last_not_of (s set : string) : Z :=
  match last_not_of s set with
  | Some i => Z.of_nat i
  | None => npos
  end.

(** [std::string(buffer)] for a NUL-terminated buffer: the characters
    before the first NUL. *)
Fixpoint c_str (s : string) : string :=
  match s with
  | "" => ""
  | String c s' => if Ascii.eqb c NUL then "" else String c (c_str s')
  end.

(** [std::to_string] on an integer: decimal digits, ["-"] in front of a
    negative number. *)
Definition to_string (z : Z) : string := pretty z.

End StdString.

(** ** [std::istringstream] and [std::ifstream]: formatted extraction *)

Module IStream.
Import StdString.

(** The unread characters and the two state bits the code depends on. *)
Record istream := {
  buf : string;
  eofbit : bool;
  failbit : bool
}.

Definition open_on (s : string) : istream :=
  {| buf := s; eofbit := false; failbit := false |}.

(** A stream whose file could not be opened. *)
Definition failed : istream :=
  {| buf := ""; eofbit := false; failbit := true |}.

Definition good (i : istream) : bool := negb (eofbit i) && negb (failbit i).

(** [static_cast<bool>(stream)] is [!fail()]. *)
Definition to_bool (i : istream) : bool := negb (failbit i).

(** [std::isspace] in the "C" locale. *)
Definition isspace (c : ascii) : bool :=
  Ascii.eqb c SP || Ascii.eqb c TAB || Ascii.eqb c LF
  || Ascii.eqb c VT || Ascii.eqb c FF || Ascii.eqb c CR.

Fixpoint skipws (s : string) : string :=
  match s with
  | "" => ""
  | String c s' => if isspace c then skipws s' else s
  end.

(** The longest prefix without whitespace, and what follows it. *)
Fixpoint token (s : string) : string * string :=
  match s with
  | "" => ("", "")
  | String c s' =>
      if isspace c then ("", s)
      else let (t, r) := token s' in (String c t, r)
  end.

Definition is_empty (s : string) : bool :=
  match s with "" => true | _ => false end.

(** [is >> str] for a [std::string]. The sentry skips whitespace and
    fails (leaving [str] alone) on a stream that is not good or that ends
    before a character is found; then characters are taken up to the next
    whitespace or the end of input. *)
Definition extract_string (i : istream) (str : string) : istream * string :=
  if negb (good i) then
    ({| buf := buf i; eofbit := eofbit i; failbit := true |}, str)
  else
    let s := skipws (buf i) in
    if is_empty s then
      ({| buf := ""; eofbit := true; failbit := true |}, str)
    else
      let (t, r) := token s in
      ({| buf := r; eofbit := is_empty r; failbit := is_empty t |}, t).

(** The characters before the first line feed, and what follows that line
    feed when there is one. *)
Fixpoint line (s : string) : string * option string :=
  match s with
  | "" => ("", None)
  | String c s' =>
      if Ascii.eqb c LF then ("", Some s')
      else let (l, r) := line s' in (String c l, r)
  end.

(** [std::getline(is, str)]. The sentry does not skip whitespace. The
    delimiter is taken from the stream and dropped; [failbit] is set only
    when nothing at all was taken. *)
Definition getline (i : istream) (str : string) : istream * string :=
  if negb (good i) then
    ({| buf := buf i; eofbit := eofbit i; failbit := true |}, str)
  else
    match line (buf i) with
    | (l, Some r) => ({| buf := r; eofbit := false; failbit := false |}, l)
    | (l, None) => ({| buf := ""; eofbit := true; failbit := is_empty l |}, l)
    end.

Definition isdigit (c : ascii) : bool :=
  let n := N_of_ascii c in ((48 <=? n) && (n <=? 57))%N.

Definition digit_value (c : ascii) : Z := Z.of_N (N_of_ascii c) - 48.

Fixpoint digits (s : string) (acc : Z) : Z * string * bool :=
  match s with
  | "" => (acc, "", false)
  | String c s' =>
      if isdigit c then
        let '(v, r, _) := digits s' (10 * acc + digit_value c) in (v, r, true)
      else (acc, s, false)
  end.

Definition INT_MAX : Z := 2 ^ 31 - 1.
Definition INT_MIN : Z := - 2 ^ 31.

(** [is >> n] for an [int] ([pid_t]). A failed sentry leaves [n] as it
    was; a field without digits stores 0 and one outside the range of
    [int] stores the nearest bound, both with [failbit]. *)
Definition extract_int (i : istream) (n : Z) : istream * Z :=
  if negb (good i) then
    ({| buf := buf i; eofbit := eofbit i; failbit := true |}, n)
  else
    let s := skipws (buf i) in
    if is_empty s then
      ({| buf := ""; eofbit := true; failbit := true |}, n)
    else
      let '(neg, s1) :=
        match s with
        | String "-" s' => (true, s')
        | String "+" s' => (false, s')
        | _ => (false, s)
        end in
      let '(v, r, some) := digits s1 0 in
      let v := if neg then - v else v in
      if negb some then
        ({| buf := r; eofbit := is_empty r; failbit := true |}, 0)
      else if INT_MAX <? v then
        ({| buf := r; eofbit := is_empty r; failbit := true |}, INT_MAX)
      else if v <? INT_MIN then
        ({| buf := r; eofbit := is_empty r; failbit := true |}, INT_MIN)
      else
        ({| buf := r; eofbit := is_empty r; failbit := false |}, v).

End IStream.

(** ** The operating system, as far as the program looks at it *)

Module Posix.

(** What a path names. The program creates FIFOs and one regular file. *)
Inductive node :=
| Regular (content : string)
| Fifo.

(** [fs::exists(path)] *)
Definition exists_path (fs : gmap string node) (path : string) : bool :=
  match fs !! path with
  | Some _ => true
  | None => false
  end.

(** [unlink(path)]; the program ignores its return value. *)
Definition unlink (path : string) (fs : gmap string node) : gmap string node :=
  delete path fs.

(** [mkfifo(path, 0666)]: creates nothing over an existing name; the
    program ignores its return value. *)
Definition mkfifo (path : string) (fs : gmap string node) : gmap string node :=
  match fs !! path with
  | Some _ => fs
  | None => <[path := Fifo]> fs
  end.

(** [std::ifstream f(path)]: a FIFO is never stored under the marker's
    name by this program, so only regular files yield a readable stream. *)
Definition ifstream (fs : gmap string node) (path : string) : IStream.istream :=
  match fs !! path with
  | Some (Regular content) => IStream.open_on content
  | _ => IStream.failed
  end.

(** One entry of the process table, seen from the calling process:
    its identifier, its process group, and whether the caller is allowed
    to signal it. *)
Record process := {
  pid : Z;
  pgid : Z;
  may_signal : bool
}.

Record process_table := {
  procs : list process;
  caller_pid : Z;
  caller_pgid : Z
}.

(** The processes [kill(target, sig)] addresses (kill(2)): a positive
    [target] names one process, 0 the caller's process group, -1 every
    process but init and the caller, and another negative number the
    process group of its absolute value. *)
Definition addressed (os : process_table) (target : Z) (p : process) : bool :=
  if 0 <? target then pid p =? target
  else if target =? 0 then pgid p =? caller_pgid os
  else if target =? -1 then negb (pid p =? 1) && negb (pid p =? caller_pid os)
  else pgid p =? - target.

(** The return value of [kill(target, sig)]: 0 when an addressed process
    exists that the caller may signal, -1 otherwise (ESRCH or EPERM). With
    [sig = 0] nothing is delivered, so the table is unchanged. *)
Definition kill (os : process_table) (target sig : Z) : Z :=
  if existsb (fun p => addressed os target p && may_signal p) (procs os)
  then 0 else -1.

(** [read(fd, buffer, count)] on a pipe end whose peer wrote [incoming]
    in one piece before closing ([None]: the call failed). Returns the
    byte count and the bytes placed at the start of the buffer. *)
Definition read (incoming : option string) (count : Z) : Z * string :=
  match incoming with
  | None => (-1, "")
  | Some w =>
      let got := StdString.take count w in
      (Z.of_nat (String.length got), got)
  end.

End Posix.

(** ** Constants of the program *)

Definition FIFO_REQUEST : string := "/tmp/persistent_daemon_req".
Definition FIFO_RESPONSE : string := "/tmp/persistent_daemon_resp".
Definition PID_FILE : string := "/tmp/persistent_daemon.pid".

(** ** [is_daemon_running] *)

(** [uninit] is the indeterminate value the local [pid] holds before the
    extraction, which a failed sentry leaves in place. *)
Definition is_daemon_running
    (fs : gmap string Posix.node) (os : Posix.process_table) (uninit : Z) : bool :=
  if negb (Posix.exists_path fs PID_FILE) then false
  else
    let pid_file := Posix.ifstream fs PID_FILE in
    let '(_, pid) := IStream.extract_int pid_file uninit in
    Posix.kill os pid 0 =? 0.

(** ** [daemon_main] *)

Import StdString.

(** The locals of [daemon_main] that outlive one loop iteration.
    [start_time] and every clock reading are nanoseconds of the steady
    clock. *)
Record daemon := {
  state : gmap string string;
  query_count : Z;
  start_time : Z
}.

(** Two's-complement wrap-around of a 32-bit [int]. *)
Definition int_wrap (z : Z) : Z := (z + 2 ^ 31) mod 2 ^ 32 - 2 ^ 31.

(** What the environment supplies to one pass through the loop body: the
    descriptor [open(FIFO_REQUEST, O_RDONLY)] returns, what the client wrote
    ([None] when [read] fails), the steady clock, and the descriptor
    [open(FIFO_RESPONSE, O_WRONLY)] returns. *)
Record iteration := {
  req_fd : Z;
  incoming : option string;
  now : Z;
  resp_fd : Z
}.

Inductive flow := Continue | Break.

(** [open(FIFO_RESPONSE, O_WRONLY)], then [write] and [close] when the
    descriptor is valid: the payloads that reach the response channel. *)
Definition send_response (resp_fd : Z) (response : string) : list string :=
  if 0 <=? resp_fd then [response] else [].

Definition initial_daemon (start : Z) : daemon :=
  {| state := <["status" := "running"]> (<["version" := "1.0"]> ∅);
     query_count := 0;
     start_time := start |}.

(** The [SET] branch: the new store and the response. *)
Definition do_set (st : gmap string string) (arg : string)
  : result (gmap string string * string) :=
  let iss := IStream.open_on arg in
  let '(iss, key) := IStream.extract_string iss "" in
  let '(ok, value) :=
    if IStream.to_bool iss then
      let '(iss, value) := IStream.getline iss "" in (IStream.to_bool iss, value)
    else (false, "") in
  if ok then
    value ← substr_from value 1;
    Ok (<[key := value]> st, "OK: Set " +:+ key +:+ " = " +:+ value)
  else
    Ok (st, "ERROR: Invalid SET command").

(** The characters [GET] trims from the end of its key: [" \n\r\t"]. *)
Definition trim_set : string := " " +:+ nl +:+ String CR (String TAB "").

(** The [GET] branch: the response. *)
Definition do_get (st : gmap string string) (arg : string) : result string :=
  let key := arg in
  key ← erase key (size_t_wrap (find_last_not_of key trim_set + 1));
  match st !! key with
  | Some v => Ok ("VALUE: " +:+ v)
  | None => Ok "ERROR: Key not found"
  end.

(** The body of [while (true)] from [// Process request] on: whether the
    loop goes on, the daemon's locals afterwards, and what was written to
    the response channel. [Throw] is an exception leaving [daemon_main]. *)
Definition process_request (it : iteration) (d : daemon) (request : string)
  : result (flow * daemon * list string) :=
  if String.eqb request "STATUS" then
    let uptime := now it - start_time d in
    let seconds := Z.quot uptime 1000000000 in
    let count := int_wrap (query_count d + 1) in
    let response :=
      ("Status: Running" +:+ nl)
      +:+ ("Queries: " +:+ to_string count +:+ nl)
      +:+ ("Uptime: " +:+ to_string seconds +:+ " seconds" +:+ nl)
      +:+ ("State entries: " +:+ to_string (Z.of_nat (size (state d))) +:+ nl) in
    Ok (Continue,
        {| state := state d; query_count := count; start_time := start_time d |},
        send_response (resp_fd it) response)
  else
    head ← substr request 0 4;
    if String.eqb head "SET " then
      arg ← substr_from request 4;
      '(st, response) ← do_set (state d) arg;
      Ok (Continue,
          {| state := st; query_count := query_count d; start_time := start_time d |},
          send_response (resp_fd it) response)
    else
      head ← substr request 0 4;
      if String.eqb head "GET " then
        arg ← substr_from request 4;
        response ← do_get (state d) arg;
        Ok (Continue, d, send_response (resp_fd it) response)
      else if String.eqb request "SHUTDOWN" then
        Ok (Break, d, send_response (resp_fd it) "Shutting down...")
      else
        Ok (Continue, d,
            send_response (resp_fd it)
              "ERROR: Unknown command. Use STATUS, GET <key>, SET <key> <value>, or SHUTDOWN").

(** One pass through the body of [while (true)]. *)
Definition loop_body (it : iteration) (d : daemon)
  : result (flow * daemon * list string) :=
  if req_fd it <? 0 then Ok (Continue, d, [])
  else
    let '(bytes, buffer) := Posix.read (incoming it) (1024 - 1) in
    if bytes <=? 0 then Ok (Continue, d, [])
    else process_request it d (c_str buffer).

(** How a run of the loop over a finite supply of client connections ends:
    still blocked in [open] waiting for the next client, left by [break],
    or unwound by an exception. *)
Inductive ending :=
| Waiting (d : daemon)
| Left (d : daemon)
| Unwound (e : exn).

(** The [while (true)] loop, with everything written to the response
    channel, in order. *)
Fixpoint serve (its : list iteration) (d : daemon) : ending * list string :=
  match its with
  | [] => (Waiting d, [])
  | it :: rest =>
      match loop_body it d with
      | Throw e => (Unwound e, [])
      | Ok (Break, d', out) => (Left d', out)
      | Ok (Continue, d', out) =>
          let '(e, outs) := serve rest d' in (e, (out ++ outs)%list)
      end
  end.

(** How the daemon process stands after [its]. *)
Inductive lifecycle := Serving | Terminated | Aborted.

(** [daemon_main], from the channel setup to the cleanup. An uncaught
    exception ends the process in [std::terminate], without the cleanup. *)
Definition daemon_main (fs : gmap string Posix.node) (start : Z) (its : list iteration)
  : lifecycle * gmap string Posix.node * list string :=
  let fs := Posix.unlink FIFO_REQUEST fs in
  let fs := Posix.unlink FIFO_RESPONSE fs in
  let fs := Posix.mkfifo FIFO_REQUEST fs in
  let fs := Posix.mkfifo FIFO_RESPONSE fs in
  match serve its (initial_daemon start) with
  | (Waiting _, out) => (Serving, fs, out)
  | (Unwound _, out) => (Aborted, fs, out)
  | (Left _, out) =>
      let fs := Posix.unlink FIFO_REQUEST fs in
      let fs := Posix.unlink FIFO_RESPONSE fs in
      let fs := Posix.unlink PID_FILE fs in
      (Terminated, fs, out)
  end.

(** ** [send_request] *)

(** What the environment supplies to one client call: the two descriptors
    and what the daemon wrote to the response channel ([None] when [read]
    fails). *)
Record client_env := {
  c_req_fd : Z;
  c_resp_fd : Z;
  c_response : option string
}.

(** The returned string and the payloads written to the request channel. *)
Definition send_request (env : client_env) (request : string) : string * list string :=
  if c_req_fd env <? 0 then ("ERROR: Cannot connect to daemon", [])
  else
    let written := [request] in
    if c_resp_fd env <? 0 then ("ERROR: Cannot read response", written)
    else
      let '(bytes, buffer) := Posix.read (c_response env) (1024 - 1) in
      if 0 <? bytes then (take bytes buffer, written)
      else ("ERROR: No response", written).

(** ** One transaction between a client and the daemon *)

(** A client call served by one pass of the daemon's loop, every [open]
    succeeding: the client writes [request] to the request channel, the
    daemon reads and answers it at clock reading [t], and the client reads
    the answer. [None] when the daemon writes no answer (the client then
    stays blocked) or is unwound by an exception. *)
Definition transact (t : Z) (request : string) (d : daemon) : option (string * daemon) :=
  match loop_body {| req_fd := 3; incoming := Some request; now := t; resp_fd := 4 |} d with
  | Ok (_, d', [response]) =>
      let env := {| c_req_fd := 3; c_resp_fd := 4; c_response := Some response |} in
      Some (fst (send_request env request), d')
  | _ => None
  end.

(** [SET k v] followed by [GET k]: the reply to the second request. *)
Definition set_then_get (t1 t2 : Z) (k v : string) (d : daemon) : option string :=
  match transact t1 ("SET " +:+ k +:+ " " +:+ v) d with
  | Some (_, d1) =>
      match transact t2 ("GET " +:+ k) d1 with
      | Some (reply, _) => Some reply
      | None => None
      end
  | None => None
  end.

(** ** Vocabulary of the properties *)

(** The request string the loop body goes on to parse, when it gets that
    far: the request channel opened and [read] returned at least a byte. *)
Definition request_of (it : iteration) : option string :=
  if req_fd it <? 0 then None
  else
    let '(bytes, buffer) := Posix.read (incoming it) (1024 - 1) in
    if bytes <=? 0 then None else Some (c_str buffer).

(** Every character of [s] satisfies [p]. *)
Fixpoint all_chars (p : ascii -> bool) (s : string) : bool :=
  match s with
  | "" => true
  | String c s' => p c && all_chars p s'
  end.

(** An ASCII control byte: below the space, or DEL. *)
Definition control_byte (c : ascii) : bool :=
  let n := N_of_ascii c in ((n <? 32) || (n =? 127))%N.

Definition no_control (s : string) : bool := all_chars (fun c => negb (control_byte c)) s.

(** No whitespace and no NUL: what a key has to be made of. *)
Definition key_char (c : ascii) : bool :=
  negb (IStream.isspace c) && negb (Ascii.eqb c NUL).

(** No NUL and no line feed: what a value has to be made of. *)
Definition value_char (c : ascii) : bool :=
  negb (Ascii.eqb c LF) && negb (Ascii.eqb c NUL).

Definition no_space (s : string) : bool :=
  all_chars (fun c => negb (IStream.isspace c)) s.

(** [s] without its trailing run of characters from [trim_set], written
    without indices. *)
Fixpoint rtrim (s : string) : string :=
  match s with
  | "" => ""
  | String c s' =>
      let t := rtrim s' in
      if IStream.is_empty t && mem c trim_set then "" else String c t
  end.

(** The answer [GET] owes for a key. *)
Definition get_reply (st : gmap string string) (key : string) : string :=
  match st !! key with
  | Some v => "VALUE: " +:+ v
  | None => "ERROR: Key not found"
  end.

Definition is_status (it : iteration) : bool :=
  match request_of it with
  | Some r => String.eqb r "STATUS"
  | None => false
  end.

Definition is_request (it : iteration) : bool :=
  match request_of it with
  | Some _ => true
  | None => false
  end.

(** How many of the passes [its] satisfy [p]. *)
Fixpoint count_passes (p : iteration -> bool) (its : list iteration) : Z :=
  match its with
  | [] => 0
  | it :: rest => (if p it then 1 else 0) + count_passes p rest
  end.

(** How many of the passes [its] parsed a [STATUS] request. *)
Definition status_requests (its : list iteration) : Z := count_passes is_status its.

(** How many of the passes [its] parsed a request of any kind. *)
Definition processed_requests (its : list iteration) : Z := count_passes is_request its.

(** The four lines of the [STATUS] response. *)
Definition status_report (queries seconds entries : Z) : string :=
  "Status: Running" +:+ nl
  +:+ "Queries: " +:+ to_string queries +:+ nl
  +:+ "Uptime: " +:+ to_string seconds +:+ " seconds" +:+ nl
  +:+ "State entries: " +:+ to_string entries +:+ nl.

(** The daemon's locals at the top of the loop, after any number of
    passes. *)
Inductive reachable : daemon -> Prop :=
| reach_start (start : Z) : reachable (initial_daemon start)
| reach_pass (it : iteration) (d d' : daemon) (f : flow) (out : list string) :
    reachable d -> loop_body it d = Ok (f, d', out) -> reachable d'.

(** ** [daemonize] *)

Definition EXIT_SUCCESS : Z := 0.
Definition EXIT_FAILURE : Z := 1.

(** [std::ofstream f(path); f << text; f.close()]: the regular file at
    [path] is created or truncated and holds [text]. A FIFO under that
    name would take the bytes as a pipe; it stays the node it is. *)
Definition ofstream_write (path text : string) (fs : gmap string Posix.node)
  : gmap string Posix.node :=
  match fs !! path with
  | Some Posix.Fifo => fs
  | _ => <[path := Posix.Regular text]> fs
  end.

(** What the process running [daemonize] gets from the system: the return
    values of the first [fork], of [setsid] and of the second [fork], and
    its own identifier at the end. *)
Record daemonize_env := {
  fork_first : Z;
  setsid_result : Z;
  fork_second : Z;
  getpid : Z
}.

(** The process either calls [exit] or returns from [daemonize] with the
    marker written. *)
Inductive daemonize_outcome :=
| Exits (status : Z)
| Detached (fs : gmap string Posix.node).

Definition daemonize (env : daemonize_env) (fs : gmap string Posix.node)
  : daemonize_outcome :=
  if fork_first env <? 0 then Exits EXIT_FAILURE
  else if 0 <? fork_first env then Exits EXIT_SUCCESS
  else if setsid_result env <? 0 then Exits EXIT_FAILURE
  else if fork_second env <? 0 then Exits EXIT_FAILURE
  else if 0 <? fork_second env then Exits EXIT_SUCCESS
  else Detached (ofstream_write PID_FILE (to_string (getpid env)) fs).

(** ** [main] *)

(** The [--daemon] branch of [main]: [daemonize(); daemon_main(); return 0].
    [None] when [daemonize] left through [exit]. *)
Definition daemon_mode (env : daemonize_env) (fs : gmap string Posix.node)
    (start : Z) (its : list iteration)
  : option (lifecycle * gmap string Posix.node * list string) :=
  match daemonize env fs with
  | Exits _ => None
  | Detached fs' => Some (daemon_main fs' start its)
  end.

(** What the client does about a daemon before its prompt: nothing when
    [is_daemon_running] says one is there; otherwise it forks, the child
    replacing itself by the daemon, the parent sleeping 500 ms, and a
    failed fork ending the client with status 1. *)
Inductive launch :=
| NoLaunch
| ExecDaemon
| WaitForDaemon
| ForkFailed.

Definition launch_daemon (fs : gmap string Posix.node) (os : Posix.process_table)
    (uninit : Z) (fork_result : Z) : launch :=
  if negb (is_daemon_running fs os uninit) then
    if fork_result =? 0 then ExecDaemon
    else if 0 <? fork_result then WaitForDaemon
    else ForkFailed
  else NoLaunch.

(** The interactive loop of [main]. Each line [std::getline] delivers
    comes with the environment a [send_request] for it would meet. Returns
    what is printed to standard output, piece by piece, and the payloads
    written to the request channel. The end of the list is the end of
    input, met after a last prompt. *)
Fixpoint client_loop (input : list (string * client_env)) : list string * list string :=
  match input with
  | [] => (["> "; "Client exiting." +:+ nl], [])
  | (line, env) :: rest =>
      if String.eqb line "EXIT" || String.eqb line "exit" then
        (["> "; "Client exiting." +:+ nl], [])
      else if IStream.is_empty line then
        let '(printed, sent) := client_loop rest in ("> " :: printed, sent)
      else
        let '(response, written) := send_request env line in
        if String.eqb line "SHUTDOWN" then
          (["> "; response; nl; "Client exiting." +:+ nl], written)
        else
          let '(printed, sent) := client_loop rest in
          ("> " :: response :: nl :: printed, (written ++ sent)%list)
  end.

(** Whether the process table holds a process [p] that the caller may
    signal. *)
Definition alive (os : Posix.process_table) (p : Z) : bool :=
  existsb (fun q => (Posix.pid q =? p) && Posix.may_signal q) (Posix.procs os).

(** What a pass does apart from what it writes: whether the loop goes
    on, and the daemon's locals; [None] for an exception. *)
Definition effect_of (r : result (flow * daemon * list string)) : option (flow * daemon) :=
  match r with
  | Ok (f, d, _) => Some (f, d)
  | Throw _ => None
  end.

Definition unknown_command : string :=
  "ERROR: Unknown command. Use STATUS, GET <key>, SET <key> <value>, or SHUTDOWN".

(** The four characters a GET removes from the end of its key, spelled
    out one by one: space, line feed, carriage return, horizontal tab. *)
Definition trimmed_char (c : ascii) : bool :=
  Ascii.eqb c " "%char || Ascii.eqb c "010"%char
  || Ascii.eqb c "013"%char || Ascii.eqb c "009"%char.

(** [s] is empty or its last character does not satisfy [p]. *)
Fixpoint ends_outside (p : ascii -> bool) (s : string) : bool :=
  match s with
  | "" => true
  | String c "" => negb (p c)
  | String _ s' => ends_outside p s'
  end.

(** * Proofs *)

(** ** Strings *)

Section string_facts.

Lemma take_all (s : string) : forall n : Z,
  Z.of_nat (String.length s) <= n -> take n s = s.
Proof.
  induction s as [|c s IH]; intros n Hn; simpl in *; [reflexivity|].
  destruct (Z.leb_spec n 0); [lia|].
  f_equal. apply IH. lia.
Qed.

Lemma take_length (s : string) : forall n : Z,
  0 <= n -> Z.of_nat (String.length (take n s)) <= n.
Proof.
  induction s as [|c s IH]; intros n Hn; simpl; [lia|].
  destruct (Z.leb_spec n 0); simpl; [lia|].
  specialize (IH (n - 1)). lia.
Qed.

Lemma c_str_length (s : string) :
  (String.length (c_str s) <= String.length s)%nat.
Proof.
  induction s as [|c s IH]; simpl; [lia|].
  destruct (Ascii.eqb c NUL); simpl; lia.
Qed.

Lemma all_chars_app (p : ascii -> bool) (s t : string) :
  all_chars p (s +:+ t) = all_chars p s && all_chars p t.
Proof.
  induction s as [|c s IH]; simpl; [reflexivity|].
  rewrite IH. apply andb_assoc.
Qed.

Lemma all_chars_weaken (p q : ascii -> bool) (s : string) :
  (forall c, p c = true -> q c = true) ->
  all_chars p s = true -> all_chars q s = true.
Proof.
  intros Hpq. induction s as [|c s IH]; simpl; [reflexivity|].
  intros [Hc Hs]%andb_prop. rewrite (Hpq c Hc). simpl. auto.
Qed.

Lemma c_str_id (s : string) :
  all_chars (fun c => negb (Ascii.eqb c NUL)) s = true -> c_str s = s.
Proof.
  induction s as [|c s IH]; simpl; [reflexivity|].
  intros [Hc Hs]%andb_prop.
  destruct (Ascii.eqb c NUL); [discriminate|].
  f_equal. auto.
Qed.

Lemma length_app (s t : string) :
  String.length (s +:+ t) = (String.length s + String.length t)%nat.
Proof. induction s as [|c s IH]; simpl; [reflexivity|]. now rewrite IH. Qed.

Lemma drop_0 (s : string) : drop 0 s = s.
Proof. destruct s; reflexivity. Qed.

Lemma append_cons (c : ascii) (s t : string) :
  String c s +:+ t = String c (s +:+ t).
Proof. reflexivity. Qed.

Lemma append_empty (s : string) : s +:+ "" = s.
Proof.
  induction s as [|c s IH]; [reflexivity|]. now rewrite append_cons, IH.
Qed.

Lemma append_assoc (s t u : string) : (s +:+ t) +:+ u = s +:+ t +:+ u.
Proof.
  induction s as [|c s IH]; [reflexivity|]. now rewrite !append_cons, IH.
Qed.

Lemma substr_0 (s : string) (n : Z) : substr s 0 n = Ok (take n s).
Proof.
  unfold substr. destruct (Z.ltb_spec (Z.of_nat (String.length s)) 0); [lia|].
  destruct s; reflexivity.
Qed.

Lemma substr_from_inside (s : string) (pos : Z) :
  pos <= Z.of_nat (String.length s) -> Z.of_nat (String.length s) <= npos ->
  substr_from s pos = Ok (drop pos s).
Proof.
  intros Hpos Hlen. unfold substr_from, substr.
  destruct (Z.ltb_spec (Z.of_nat (String.length s)) pos); [lia|].
  f_equal. apply take_all.
  assert (Hd : forall (u : string) n,
    (String.length (drop n u) <= String.length u)%nat).
  { induction u as [|c u IH]; intros n; simpl; [lia|].
    destruct (n <=? 0); simpl; [lia|]. specialize (IH (n - 1)). lia. }
  specialize (Hd s pos). lia.
Qed.

End string_facts.

(** ** Reading a request *)

Section reading.

Lemma request_of_loop_body (it : iteration) (d : daemon) (r : string) :
  request_of it = Some r -> loop_body it d = process_request it d r.
Proof.
  unfold request_of, loop_body.
  destruct (req_fd it <? 0); [discriminate|].
  destruct (Posix.read (incoming it) (1024 - 1)) as [bytes buffer].
  destruct (bytes <=? 0); [discriminate|].
  now intros [= <-].
Qed.

Lemma request_of_none (it : iteration) (d : daemon) :
  request_of it = None -> loop_body it d = Ok (Continue, d, []).
Proof.
  unfold request_of, loop_body.
  destruct (req_fd it <? 0); [reflexivity|].
  destruct (Posix.read (incoming it) (1024 - 1)) as [bytes buffer].
  destruct (bytes <=? 0); [reflexivity | discriminate].
Qed.

(** A request never exceeds the buffer, less its terminator. *)
Lemma request_of_length (it : iteration) (r : string) :
  request_of it = Some r -> Z.of_nat (String.length r) <= 1023.
Proof.
  unfold request_of, Posix.read.
  destruct (req_fd it <? 0); [discriminate|].
  destruct (incoming it) as [w|]; [|discriminate].
  destruct (_ <=? 0); [discriminate|].
  intros [= <-].
  pose proof (c_str_length (take (1024 - 1) w)).
  pose proof (take_length w (1024 - 1)). lia.
Qed.

(** A payload without NUL that fits the buffer arrives as it was sent. *)
Lemma request_of_payload (it : iteration) (w : string) :
  0 <= req_fd it -> incoming it = Some w -> w <> "" ->
  all_chars (fun c => negb (Ascii.eqb c NUL)) w = true ->
  Z.of_nat (String.length w) <= 1023 ->
  request_of it = Some w.
Proof.
  intros Hfd Hin Hne Hnul Hlen. unfold request_of, Posix.read.
  destruct (Z.ltb_spec (req_fd it) 0); [lia|].
  rewrite Hin, (take_all w (1024 - 1)) by lia.
  destruct (Z.leb_spec (Z.of_nat (String.length w)) 0).
  - destruct w; [congruence | simpl in *; lia].
  - now rewrite c_str_id.
Qed.

End reading.

(** ** Stream extraction *)

Section streams.
Import IStream.

Lemma skipws_no_space (s : string) : no_space s = true -> skipws s = s.
Proof.
  destruct s as [|c s]; simpl; [reflexivity|].
  intros [Hc _]%andb_prop. now destruct (isspace c).
Qed.

Lemma skipws_head (c : ascii) (s : string) :
  isspace c = false -> skipws (String c s) = String c s.
Proof. intros H. simpl. now rewrite H. Qed.

(** A stretch without whitespace is taken whole when it is followed by
    the end of input or by a whitespace character. *)
Lemma token_app (k r : string) :
  no_space k = true ->
  match r with "" => True | String c _ => isspace c = true end ->
  token (k +:+ r) = (k, r).
Proof.
  intros Hk Hr. induction k as [|c k IH]; simpl in *.
  - destruct r as [|c r]; [reflexivity|]. simpl. now rewrite Hr.
  - apply andb_prop in Hk as [Hc Hk].
    destruct (isspace c); [discriminate|]. now rewrite IH.
Qed.

Lemma token_no_space (k : string) : no_space k = true -> token k = (k, "").
Proof.
  intros Hk. pose proof (token_app k "" Hk I) as H.
  now rewrite append_empty in H.
Qed.

Lemma line_no_lf (s : string) :
  all_chars (fun c => negb (Ascii.eqb c LF)) s = true -> line s = (s, None).
Proof.
  induction s as [|c s IH]; simpl; [reflexivity|].
  intros [Hc Hs]%andb_prop.
  destruct (Ascii.eqb c LF); [discriminate|]. now rewrite IH.
Qed.

(** [SET] with nothing after the key: the extraction of the key runs
    into the end of input (or finds no key at all), so [getline] fails. *)
Lemma do_set_key_only (st : gmap string string) (k : string) :
  no_space k = true ->
  do_set st k = Ok (st, "ERROR: Invalid SET command").
Proof.
  intros Hk. unfold do_set, extract_string. simpl.
  rewrite (skipws_no_space k Hk).
  destruct k as [|c k]; [reflexivity|].
  cbv [is_empty]. rewrite (token_no_space _ Hk). reflexivity.
Qed.

(** [SET] with a key, one space and a value on the same line. *)
Lemma do_set_pair (st : gmap string string) (k v : string) :
  k <> "" -> no_space k = true ->
  all_chars (fun c => negb (Ascii.eqb c LF)) v = true ->
  Z.of_nat (String.length v) < npos ->
  do_set st (k +:+ " " +:+ v)
  = Ok (<[k := v]> st, "OK: Set " +:+ k +:+ " = " +:+ v).
Proof.
  intros Hne Hk Hv Hlen. unfold do_set, extract_string. simpl.
  destruct k as [|c k]; [congruence|].
  assert (Hc : isspace c = false).
  { simpl in Hk. apply andb_prop in Hk as [Hc _]. now destruct (isspace c). }
  change (String c k +:+ " " +:+ v) with (String c (k +:+ " " +:+ v)).
  rewrite skipws_head by exact Hc. cbv [is_empty].
  change (String c (k +:+ " " +:+ v)) with (String c k +:+ String " " v).
  rewrite (token_app (String c k) (String " " v) Hk eq_refl).
  cbv [to_bool getline good failbit eofbit buf negb andb].
  rewrite (line_no_lf (String " " v)) by exact Hv.
  cbv [to_bool failbit is_empty negb].
  rewrite substr_from_inside by (simpl; lia).
  change (drop 1 (String " " v)) with (drop 0 v).
  now rewrite drop_0.
Qed.

End streams.

(** ** The trimming of [GET] *)

Section trimming.

Lemma take_0 (s : string) : take 0 s = "".
Proof. destruct s; reflexivity. Qed.

Lemma take_succ (n : nat) (c : ascii) (s : string) :
  take (Z.of_nat (S n) + 1) (String c s) = String c (take (Z.of_nat n + 1) s).
Proof.
  simpl take. destruct (Z.leb_spec (Z.of_nat (S n) + 1) 0); [lia|].
  do 2 f_equal. lia.
Qed.

(** The index [find_last_not_of] computes cuts the string where [rtrim]
    does. *)
Lemma last_not_of_rtrim (s : string) :
  match last_not_of s trim_set with
  | None => rtrim s = ""
  | Some i =>
      (i < String.length s)%nat
      /\ take (Z.of_nat i + 1) s = rtrim s
      /\ IStream.is_empty (rtrim s) = false
  end.
Proof.
  induction s as [|c s IH]; [reflexivity|].
  cbn [last_not_of rtrim].
  destruct (last_not_of s trim_set) as [i|].
  - destruct IH as (Hi & Ht & Hne).
    rewrite Hne, take_succ, Ht. simpl. repeat split; try reflexivity; lia.
  - rewrite IH. cbn [IStream.is_empty andb].
    destruct (mem c trim_set); [reflexivity|].
    repeat split; try reflexivity; [simpl; lia|].
    change (Z.of_nat 0 + 1) with 1. simpl take. now rewrite take_0.
Qed.

(** [key.erase(key.find_last_not_of(" \n\r\t") + 1)] trims the key and
    never throws, the wrap-around of [npos + 1] to 0 included. *)
Lemma erase_trims (key : string) :
  Z.of_nat (String.length key) < npos ->
  erase key (size_t_wrap (find_last_not_of key trim_set + 1)) = Ok (rtrim key).
Proof.
  intros Hlen. unfold find_last_not_of.
  pose proof (last_not_of_rtrim key) as H.
  destruct (last_not_of key trim_set) as [i|].
  - destruct H as (Hi & Ht & _).
    assert (E : size_t_wrap (Z.of_nat i + 1) = Z.of_nat i + 1).
    { unfold size_t_wrap. apply Z.mod_small. unfold npos in Hlen. lia. }
    rewrite E. unfold erase.
    destruct (Z.ltb_spec (Z.of_nat (String.length key)) (Z.of_nat i + 1)); [lia|].
    now rewrite Ht.
  - change (size_t_wrap (npos + 1)) with 0. unfold erase.
    destruct (Z.ltb_spec (Z.of_nat (String.length key)) 0); [lia|].
    now rewrite take_0, H.
Qed.

Lemma do_get_reply (st : gmap string string) (arg : string) :
  Z.of_nat (String.length arg) < npos ->
  do_get st arg = Ok (get_reply st (rtrim arg)).
Proof.
  intros Hlen. unfold do_get. rewrite erase_trims by exact Hlen.
  unfold get_reply. simpl. now destruct (st !! rtrim arg).
Qed.

(** What [rtrim] removes is made of trimmed characters only, and what it
    keeps does not end in one. *)
Lemma rtrim_split (s : string) :
  exists tail : string,
    s = rtrim s +:+ tail /\ all_chars (fun c => mem c trim_set) tail = true.
Proof.
  induction s as [|c s (tail & Hs & Htail)]; [now exists ""|].
  cbn [rtrim].
  destruct (IStream.is_empty (rtrim s)) eqn:He; cbn [andb].
  - destruct (rtrim s) eqn:Hr; [|discriminate].
    destruct (mem c trim_set) eqn:Hc.
    + exists (String c s). split; [reflexivity|].
      cbn [all_chars]. rewrite Hc. cbn [andb]. rewrite Hs. exact Htail.
    + exists tail. split; [|exact Htail].
      rewrite append_cons. now rewrite <- Hs.
  - exists tail. split; [|exact Htail].
    rewrite append_cons. now rewrite <- Hs.
Qed.

End trimming.

(** ** The command dispatch *)

Section dispatch.

Lemma head_of (c1 c2 c3 c4 : ascii) (arg : string) :
  substr (String c1 (String c2 (String c3 (String c4 arg)))) 0 4
  = Ok (String c1 (String c2 (String c3 (String c4 "")))).
Proof. rewrite substr_0. simpl take. now rewrite take_0. Qed.

Lemma arg_of (c1 c2 c3 c4 : ascii) (arg : string) :
  Z.of_nat (String.length arg) <= 1019 ->
  substr_from (String c1 (String c2 (String c3 (String c4 arg)))) 4 = Ok arg.
Proof.
  intros Hlen. rewrite substr_from_inside.
  - simpl drop. now rewrite drop_0.
  - simpl String.length. lia.
  - unfold npos. simpl String.length. lia.
Qed.

Lemma process_set (it : iteration) (d : daemon) (arg : string) :
  Z.of_nat (String.length arg) <= 1019 ->
  process_request it d ("SET " +:+ arg)
  = '(st, response) ← do_set (state d) arg;
    Ok (Continue,
        {| state := st; query_count := query_count d; start_time := start_time d |},
        send_response (resp_fd it) response).
Proof.
  intros Hlen. unfold process_request.
  change ("SET " +:+ arg) with (String "S" (String "E" (String "T" (String " " arg)))).
  rewrite head_of, arg_of by exact Hlen. reflexivity.
Qed.

Lemma process_get (it : iteration) (d : daemon) (arg : string) :
  Z.of_nat (String.length arg) <= 1019 ->
  process_request it d ("GET " +:+ arg)
  = Ok (Continue, d, send_response (resp_fd it) (get_reply (state d) (rtrim arg))).
Proof.
  intros Hlen. unfold process_request.
  change ("GET " +:+ arg) with (String "G" (String "E" (String "T" (String " " arg)))).
  rewrite head_of, arg_of by exact Hlen.
  cbn -[do_get get_reply rtrim send_response].
  rewrite do_get_reply by (unfold npos; lia). reflexivity.
Qed.

Lemma process_status (it : iteration) (d : daemon) :
  process_request it d "STATUS"
  = Ok (Continue,
        {| state := state d;
           query_count := int_wrap (query_count d + 1);
           start_time := start_time d |},
        send_response (resp_fd it)
          (status_report (int_wrap (query_count d + 1))
             (Z.quot (now it - start_time d) 1000000000)
             (Z.of_nat (size (state d))))).
Proof.
  unfold process_request, status_report. cbn [String.eqb Ascii.eqb Bool.eqb].
  now rewrite !append_assoc.
Qed.

Lemma process_shutdown (it : iteration) (d : daemon) :
  process_request it d "SHUTDOWN"
  = Ok (Break, d, send_response (resp_fd it) "Shutting down...").
Proof. reflexivity. Qed.

Lemma length_tail (p arg r : string) (n : Z) :
  r = p +:+ arg -> Z.of_nat (String.length r) <= n ->
  Z.of_nat (String.length arg) <= n - Z.of_nat (String.length p).
Proof. intros -> H. rewrite length_app in H. lia. Qed.

End dispatch.

(** ** The serving loop *)

Section serving.

Lemma serve_app (before rest : list iteration) : forall (d0 d : daemon) (out : list string),
  serve before d0 = (Waiting d, out) ->
  serve (before ++ rest) d0 = (fst (serve rest d), (out ++ snd (serve rest d))%list).
Proof.
  induction before as [|it before IH]; intros d0 d out; simpl.
  - intros [= <- <-]. now destruct (serve rest d0).
  - destruct (loop_body it d0) as [[[[] d1] o1]|e]; try discriminate.
    destruct (serve before d1) as [e1 o2] eqn:E1. intros [= -> <-].
    rewrite (IH d1 d o2 E1). simpl. now rewrite app_assoc.
Qed.

Lemma bytes_of_request (it : iteration) :
  0 <= req_fd it -> fst (Posix.read (incoming it) (1024 - 1)) <= 0 ->
  request_of it = None.
Proof.
  intros Hfd Hb. unfold request_of.
  destruct (Z.ltb_spec (req_fd it) 0); [reflexivity|].
  destruct (Posix.read (incoming it) (1024 - 1)) as [bytes buffer].
  simpl in Hb. destruct (Z.leb_spec bytes 0); [reflexivity | lia].
Qed.

Lemma same_daemon (d : daemon) :
  {| state := state d; query_count := query_count d; start_time := start_time d |} = d.
Proof. now destruct d. Qed.

End serving.

(** ** Malformed SET *)

(** C6: a SET request that carries a key and nothing after it (no
    separator and value), ["SET onlykey"] for one, is answered with the
    invalid-command error, and the daemon's locals, the store among them,
    are what they were: no entry is created. *)
Theorem set_without_value_rejected (it : iteration) (d : daemon) (k : string) :
  request_of it = Some ("SET " +:+ k) ->
  no_space k = true ->
  loop_body it d
  = Ok (Continue, d, send_response (resp_fd it) "ERROR: Invalid SET command").
Proof.
  intros Hreq Hk.
  rewrite (request_of_loop_body it d _ Hreq).
  pose proof (length_tail "SET " k _ 1023 eq_refl (request_of_length it _ Hreq)) as Hlen.
  rewrite process_set by (simpl in Hlen; lia).
  rewrite (do_set_key_only (state d) k Hk). cbn [mbind result_bind].
  now rewrite same_daemon.
Qed.

Lemma set_without_value_rejected_witness :
  loop_body {| req_fd := 3; incoming := Some "SET onlykey"; now := 0; resp_fd := 4 |}
            (initial_daemon 0)
  = Ok (Continue, initial_daemon 0, ["ERROR: Invalid SET command"]).
Proof.
  apply (set_without_value_rejected
           {| req_fd := 3; incoming := Some "SET onlykey"; now := 0; resp_fd := 4 |}
           (initial_daemon 0) "onlykey"); reflexivity.
Defined.

(** ** GET *)

Section get_facts.

Lemma mem_trim_set (c : ascii) : mem c trim_set = trimmed_char c.
Proof.
  cbv [trim_set trimmed_char mem String.append nl LF CR TAB].
  repeat match goal with
         | |- context [Ascii.eqb c ?x] => destruct (Ascii.eqb c x)
         end; reflexivity.
Qed.

(** What the code's trimming keeps does not end in one of the four
    characters. *)
Lemma rtrim_ends_outside (s : string) : ends_outside trimmed_char (rtrim s) = true.
Proof.
  induction s as [|c s IH]; [reflexivity|]. cbn [rtrim].
  destruct (rtrim s) as [|c' t] eqn:E; cbn [IStream.is_empty andb].
  - rewrite mem_trim_set. destruct (trimmed_char c) eqn:Hc; [reflexivity|].
    cbn [ends_outside]. now rewrite Hc.
  - exact IH.
Qed.

Lemma rtrim_tail (s : string) :
  exists tail : string,
    s = rtrim s +:+ tail /\ all_chars trimmed_char tail = true.
Proof.
  destruct (rtrim_split s) as (tail & Hs & Htail). exists tail. split; [exact Hs|].
  apply (all_chars_weaken (fun c => mem c trim_set)); [|exact Htail].
  intros c. now rewrite mem_trim_set.
Qed.

End get_facts.

(** C7, as the code has it: a GET request is answered from the store
    under its argument without the trailing run of spaces, line feeds,
    carriage returns and horizontal tabs (these four characters and no
    other: a trailing vertical tab, form feed or other control byte stays
    in the key): the argument splits into a key that does not end in one of
    the four and a tail made of them only, and the reply is the value stored
    under that key, or the key-not-found error when there is none; the
    daemon's locals are untouched, so GET creates no entry. *)
Theorem get_trims_four_and_leaves_store (it : iteration) (d : daemon) (raw : string) :
  request_of it = Some ("GET " +:+ raw) ->
  exists key tail : string,
    raw = key +:+ tail
    /\ all_chars trimmed_char tail = true
    /\ ends_outside trimmed_char key = true
    /\ loop_body it d
       = Ok (Continue, d,
             send_response (resp_fd it)
               match state d !! key with
               | Some v => "VALUE: " +:+ v
               | None => "ERROR: Key not found"
               end).
Proof.
  intros Hreq. destruct (rtrim_tail raw) as (tail & Hraw & Htail).
  exists (rtrim raw), tail.
  split; [exact Hraw|]. split; [exact Htail|]. split; [apply rtrim_ends_outside|].
  rewrite (request_of_loop_body it d _ Hreq).
  pose proof (length_tail "GET " raw _ 1023 eq_refl (request_of_length it _ Hreq)) as Hlen.
  rewrite process_get by (simpl in Hlen; lia). reflexivity.
Qed.

Lemma get_trims_four_and_leaves_store_witness :
  let it := {| req_fd := 3;
               incoming := Some ("GET version " +:+ String TAB (String CR nl));
               now := 0; resp_fd := 4 |} in
  exists key tail : string,
    "version " +:+ String TAB (String CR nl) = key +:+ tail
    /\ all_chars trimmed_char tail = true
    /\ ends_outside trimmed_char key = true
    /\ loop_body it (initial_daemon 0)
       = Ok (Continue, initial_daemon 0,
             send_response 4
               match state (initial_daemon 0) !! key with
               | Some v => "VALUE: " +:+ v
               | None => "ERROR: Key not found"
               end).
Proof.
  intros it.
  exact (get_trims_four_and_leaves_store it (initial_daemon 0)
           ("version " +:+ String TAB (String CR nl)) eq_refl).
Defined.

(** C7 as stated fails for whitespace and control characters other than
    the four: a vertical tab (whitespace, and a control byte) or the byte
    0x01 after the key stays in the key, and the GET of a stored key
    answers key-not-found. *)
Lemma get_keeps_trailing_vertical_tab :
  IStream.isspace VT = true /\ control_byte VT = true
  /\ control_byte "001"%char = true
  /\ state (initial_daemon 0) !! "version" = Some "1.0"
  /\ loop_body {| req_fd := 3; incoming := Some ("GET version" +:+ String VT "");
                  now := 0; resp_fd := 4 |} (initial_daemon 0)
     = Ok (Continue, initial_daemon 0, ["ERROR: Key not found"])
  /\ loop_body {| req_fd := 3; incoming := Some ("GET version" +:+ String "001"%char "");
                  now := 0; resp_fd := 4 |} (initial_daemon 0)
     = Ok (Continue, initial_daemon 0, ["ERROR: Key not found"]).
Proof. repeat split; vm_compute; reflexivity. Qed.

(** ** Empty reads *)

(** C8: when the read from the request channel returns zero or a negative
    count, the pass writes no response, changes none of the daemon's
    locals, and the loop goes on with the next [open] of the request
    channel as if the pass had not happened. *)
Theorem empty_read_is_noop (it : iteration) (d : daemon) (rest : list iteration) :
  0 <= req_fd it ->
  fst (Posix.read (incoming it) (1024 - 1)) <= 0 ->
  loop_body it d = Ok (Continue, d, []) /\ serve (it :: rest) d = serve rest d.
Proof.
  intros Hfd Hb.
  pose proof (request_of_none it d (bytes_of_request it Hfd Hb)) as H.
  split; [exact H|]. simpl. rewrite H. now destruct (serve rest d).
Qed.

Lemma empty_read_is_noop_witness :
  loop_body {| req_fd := 3; incoming := Some ""; now := 0; resp_fd := 4 |} (initial_daemon 0)
  = Ok (Continue, initial_daemon 0, []).
Proof.
  apply (empty_read_is_noop
           {| req_fd := 3; incoming := Some ""; now := 0; resp_fd := 4 |}
           (initial_daemon 0) []); simpl; lia.
Defined.

(** ** The client call *)

(** C9: [send_request] returns the cannot-connect error at once, nothing
    written, when the request channel does not open for writing; the
    cannot-read-response error when the response channel does not open for
    reading; the no-response error when no byte is read; and otherwise the
    bytes read, up to the buffer bound. It is a total function into
    strings: there is no exceptional outcome. *)
Theorem send_request_cases (env : client_env) (request : string) :
  (c_req_fd env < 0 ->
   send_request env request = ("ERROR: Cannot connect to daemon", []))
  /\ (0 <= c_req_fd env -> c_resp_fd env < 0 ->
      send_request env request = ("ERROR: Cannot read response", [request]))
  /\ (0 <= c_req_fd env -> 0 <= c_resp_fd env ->
      fst (Posix.read (c_response env) (1024 - 1)) <= 0 ->
      send_request env request = ("ERROR: No response", [request]))
  /\ (0 <= c_req_fd env -> 0 <= c_resp_fd env ->
      forall w : string, c_response env = Some w -> w <> "" ->
      send_request env request = (take 1023 w, [request])).
Proof.
  unfold send_request. repeat split.
  - intros H. now destruct (Z.ltb_spec (c_req_fd env) 0); [|lia].
  - intros H1 H2.
    destruct (Z.ltb_spec (c_req_fd env) 0); [lia|].
    now destruct (Z.ltb_spec (c_resp_fd env) 0); [|lia].
  - intros H1 H2 H3.
    destruct (Z.ltb_spec (c_req_fd env) 0); [lia|].
    destruct (Z.ltb_spec (c_resp_fd env) 0); [lia|].
    destruct (Posix.read (c_response env) (1024 - 1)) as [bytes buffer].
    simpl in H3. now destruct (Z.ltb_spec 0 bytes); [lia|].
  - intros H1 H2 w Hw Hne.
    destruct (Z.ltb_spec (c_req_fd env) 0); [lia|].
    destruct (Z.ltb_spec (c_resp_fd env) 0); [lia|].
    rewrite Hw. unfold Posix.read. change (1024 - 1) with 1023.
    destruct (Z.ltb_spec 0 (Z.of_nat (String.length (take 1023 w)))) as [Hpos|Hzero].
    + now rewrite take_all by lia.
    + destruct w as [|c w]; [congruence|]. simpl in Hzero. lia.
Qed.

Lemma send_request_cases_witness :
  send_request {| c_req_fd := -1; c_resp_fd := 4; c_response := None |} "STATUS"
  = ("ERROR: Cannot connect to daemon", [])
  /\ send_request {| c_req_fd := 3; c_resp_fd := -1; c_response := None |} "STATUS"
     = ("ERROR: Cannot read response", ["STATUS"])
  /\ send_request {| c_req_fd := 3; c_resp_fd := 4; c_response := Some "" |} "STATUS"
     = ("ERROR: No response", ["STATUS"])
  /\ send_request {| c_req_fd := 3; c_resp_fd := 4; c_response := Some "VALUE: 1.0" |}
       "GET version"
     = ("VALUE: 1.0", ["GET version"]).
Proof.
  split; [|split; [|split]].
  - apply (send_request_cases
             {| c_req_fd := -1; c_resp_fd := 4; c_response := None |} "STATUS").
    simpl; lia.
  - apply (send_request_cases
             {| c_req_fd := 3; c_resp_fd := -1; c_response := None |} "STATUS");
      simpl; lia.
  - apply (send_request_cases
             {| c_req_fd := 3; c_resp_fd := 4; c_response := Some "" |} "STATUS");
      simpl; lia.
  - refine (proj2 (proj2 (proj2 (send_request_cases
             {| c_req_fd := 3; c_resp_fd := 4; c_response := Some "VALUE: 1.0" |}
             "GET version"))) _ _ "VALUE: 1.0" _ _);
      [simpl; lia | simpl; lia | reflexivity | discriminate].
Defined.

(** ** What one pass can change *)

Section effects.
Import IStream.

(** A key that [>>] extracted successfully from a fresh stream is not
    empty. *)
Lemma extracted_key_nonempty (arg key : string) (iss : istream) :
  extract_string (open_on arg) "" = (iss, key) ->
  to_bool iss = true -> key <> "".
Proof.
  unfold extract_string. simpl.
  destruct (is_empty (skipws arg)).
  - intros [= <- _]. discriminate.
  - destruct (token (skipws arg)) as [t r]. intros [= <- <-].
    unfold to_bool. simpl. now destruct t.
Qed.

(** [SET] leaves the store alone or binds one non-empty key. *)
Lemma do_set_store (st st' : gmap string string) (arg resp : string) :
  do_set st arg = Ok (st', resp) ->
  st' = st \/ exists key value : string, key <> "" /\ st' = <[key := value]> st.
Proof.
  unfold do_set.
  destruct (extract_string (open_on arg) "") as [iss key] eqn:E.
  destruct (to_bool iss) eqn:Hb.
  - destruct (getline iss "") as [iss2 value].
    destruct (to_bool iss2).
    + destruct (substr_from value 1) as [value'|]; cbn; [|discriminate].
      intros [= <- _]. right. exists key, value'.
      split; [|reflexivity]. exact (extracted_key_nonempty arg key iss E Hb).
    + intros [= <- _]. now left.
  - intros [= <- _]. now left.
Qed.

Lemma process_request_effect (it : iteration) (d d' : daemon) (r : string)
    (f : flow) (out : list string) :
  process_request it d r = Ok (f, d', out) ->
  start_time d' = start_time d
  /\ query_count d'
     = (if String.eqb r "STATUS" then int_wrap (query_count d + 1) else query_count d)
  /\ (state d' = state d
      \/ exists key value : string,
           key <> "" /\ state d' = <[key := value]> (state d)).
Proof.
  unfold process_request.
  destruct (String.eqb r "STATUS").
  { intros [= _ <- _]. simpl. auto. }
  rewrite substr_0. cbn [mbind result_bind].
  destruct (String.eqb (take 4 r) "SET ").
  { destruct (substr_from r 4) as [arg|]; cbn [mbind result_bind]; [|discriminate].
    destruct (do_set (state d) arg) as [[st resp]|] eqn:E;
      cbn [mbind result_bind]; [|discriminate].
    intros [= _ <- _]. simpl. repeat split. exact (do_set_store _ _ _ _ E). }
  destruct (String.eqb (take 4 r) "GET ").
  { destruct (substr_from r 4) as [arg|]; cbn [mbind result_bind]; [|discriminate].
    destruct (do_get (state d) arg) as [resp|];
      cbn [mbind result_bind]; [|discriminate].
    intros [= _ <- _]. auto. }
  destruct (String.eqb r "SHUTDOWN"); intros [= _ <- _]; auto.
Qed.

Lemma loop_body_effect (it : iteration) (d d' : daemon) (f : flow) (out : list string) :
  loop_body it d = Ok (f, d', out) ->
  start_time d' = start_time d
  /\ query_count d'
     = (if is_status it then int_wrap (query_count d + 1) else query_count d)
  /\ (state d' = state d
      \/ exists key value : string,
           key <> "" /\ state d' = <[key := value]> (state d)).
Proof.
  unfold is_status. destruct (request_of it) as [r|] eqn:E.
  - rewrite (request_of_loop_body it d r E). apply process_request_effect.
  - rewrite (request_of_none it d E). intros [= _ <- _]. auto.
Qed.

(** The empty string is never bound: the seeds are named, and [SET]
    binds only extracted keys. *)
Lemma reachable_no_empty_key (d : daemon) :
  reachable d -> state d !! "" = None.
Proof.
  induction 1 as [start | it d d' f out _ IH Hstep].
  - reflexivity.
  - destruct (loop_body_effect it d d' f out Hstep) as (_ & _ & [-> | (k & v & Hk & ->)]).
    + exact IH.
    + rewrite lookup_insert_ne by exact Hk. exact IH.
Qed.

Lemma int_wrap_small (z : Z) : - 2 ^ 31 <= z < 2 ^ 31 -> int_wrap z = z.
Proof. intros H. unfold int_wrap. rewrite Z.mod_small; lia. Qed.

Lemma count_passes_nonneg (p : iteration -> bool) (its : list iteration) :
  0 <= count_passes p its.
Proof. induction its as [|it its IH]; simpl; [lia|]. destruct (p it); lia. Qed.

(** While the loop is waiting for the next client, the counter holds the
    number of [STATUS] requests parsed so far and the start time is the
    one taken before the loop. *)
Lemma serve_counter (its : list iteration) : forall (d0 d : daemon) (out : list string),
  serve its d0 = (Waiting d, out) ->
  0 <= query_count d0 ->
  query_count d0 + status_requests its < 2 ^ 31 ->
  query_count d = query_count d0 + status_requests its
  /\ start_time d = start_time d0.
Proof.
  unfold status_requests.
  induction its as [|it its IH]; intros d0 d out; simpl.
  - intros [= <- _] _ _. split; [lia | reflexivity].
  - destruct (loop_body it d0) as [[[[] d1] o1]|e] eqn:Hstep; try discriminate.
    destruct (serve its d1) as [e1 o2] eqn:E1. intros [= -> _] H0 Hlt.
    destruct (loop_body_effect it d0 d1 _ _ Hstep) as (Hs & Hq & _).
    pose proof (count_passes_nonneg is_status its) as Hnn.
    destruct (is_status it).
    + rewrite int_wrap_small in Hq by lia.
      destruct (IH d1 d o2 E1) as [Hq' Hs']; [lia | lia |].
      split; [lia | congruence].
    + destruct (IH d1 d o2 E1) as [Hq' Hs']; [lia | lia |].
      split; [lia | congruence].
Qed.

End effects.

(** ** The empty key *)

(** C10: in every state the daemon reaches, the store has no entry under
    the empty string (the two seeds are named, and SET binds only a key
    that the token extraction produced, which is not empty); so a GET
    whose argument trims to nothing is answered with the key-not-found
    error. *)
Theorem empty_key_never_stored (d : daemon) :
  reachable d ->
  state d !! "" = None
  /\ forall (it : iteration) (raw : string),
       request_of it = Some ("GET " +:+ raw) -> rtrim raw = "" ->
       loop_body it d
       = Ok (Continue, d, send_response (resp_fd it) "ERROR: Key not found").
Proof.
  intros Hd. pose proof (reachable_no_empty_key d Hd) as Hnone.
  split; [exact Hnone|]. intros it raw Hreq Hraw.
  rewrite (request_of_loop_body it d _ Hreq).
  pose proof (length_tail "GET " raw _ 1023 eq_refl (request_of_length it _ Hreq)) as Hlen.
  rewrite process_get by (simpl in Hlen; lia).
  unfold get_reply. now rewrite Hraw, Hnone.
Qed.

Lemma empty_key_never_stored_witness :
  state (initial_daemon 0) !! "" = None
  /\ loop_body {| req_fd := 3; incoming := Some "GET   "; now := 0; resp_fd := 4 |}
               (initial_daemon 0)
     = Ok (Continue, initial_daemon 0, ["ERROR: Key not found"]).
Proof.
  destruct (empty_key_never_stored (initial_daemon 0) (reach_start 0)) as [H1 H2].
  split; [exact H1|].
  apply (H2 {| req_fd := 3; incoming := Some "GET   "; now := 0; resp_fd := 4 |} "  ");
    reflexivity.
Defined.

(** ** STATUS *)

(** C5, as the code has it: whatever passes came before, the [Queries]
    value of a STATUS response is the number of STATUS requests parsed so
    far, this one included (other commands do not advance the counter),
    as long as that number fits an [int]; the response also carries the
    status text, the whole seconds between the start time taken before the
    loop and this request's clock reading, and the current number of store
    entries. *)
Theorem status_reports_status_count
    (start : Z) (its : list iteration) (d : daemon) (out : list string) (it : iteration) :
  serve its (initial_daemon start) = (Waiting d, out) ->
  request_of it = Some "STATUS" ->
  status_requests its + 1 < 2 ^ 31 ->
  loop_body it d
  = Ok (Continue,
        {| state := state d;
           query_count := status_requests its + 1;
           start_time := start |},
        send_response (resp_fd it)
          (status_report (status_requests its + 1)
             (Z.quot (now it - start) 1000000000)
             (Z.of_nat (size (state d))))).
Proof.
  intros Hrun Hreq Hfit.
  pose proof (count_passes_nonneg is_status its) as Hnn. fold (status_requests its) in Hnn.
  destruct (serve_counter its _ d out Hrun) as [Hq Hs]; simpl; [lia | lia |].
  simpl in Hq, Hs.
  rewrite (request_of_loop_body it d _ Hreq), process_status.
  rewrite Hq, Hs, int_wrap_small by lia. reflexivity.
Qed.

Lemma status_reports_status_count_witness :
  let set_ab := {| req_fd := 3; incoming := Some "SET a b"; now := 2000000000; resp_fd := 4 |} in
  let status1 := {| req_fd := 3; incoming := Some "STATUS"; now := 3000000000; resp_fd := 4 |} in
  let status2 := {| req_fd := 3; incoming := Some "STATUS"; now := 7500000000; resp_fd := 4 |} in
  let d := {| state := <["a" := "b"]> (state (initial_daemon 1000000000));
              query_count := 1;
              start_time := 1000000000 |} in
  serve [set_ab; status1] (initial_daemon 1000000000)
  = (Waiting d, ["OK: Set a = b"; status_report 1 2 3])
  /\ loop_body status2 d
     = Ok (Continue,
           {| state := state d; query_count := 2; start_time := 1000000000 |},
           [status_report 2 6 3]).
Proof.
  intros set_ab status1 status2 d.
  assert (Hrun : serve [set_ab; status1] (initial_daemon 1000000000)
                 = (Waiting d, ["OK: Set a = b"; status_report 1 2 3]))
    by (vm_compute; reflexivity).
  split; [exact Hrun|].
  apply (status_reports_status_count 1000000000 [set_ab; status1] d _ status2 Hrun);
    vm_compute; reflexivity.
Defined.

(** C5 as stated fails: after a SET and then a STATUS, two requests have
    been processed and the STATUS response reports [Queries: 1]. *)
Lemma queries_counts_only_status :
  let set_ab := {| req_fd := 3; incoming := Some "SET a b"; now := 2000000000; resp_fd := 4 |} in
  let status := {| req_fd := 3; incoming := Some "STATUS"; now := 3000000000; resp_fd := 4 |} in
  processed_requests [set_ab; status] = 2
  /\ snd (serve [set_ab; status] (initial_daemon 1000000000))
     = ["OK: Set a = b"; status_report 1 2 3]
  /\ status_report 1 2 3 <> status_report (processed_requests [set_ab; status]) 2 3.
Proof.
  split; [reflexivity|]. split; [vm_compute; reflexivity|].
  vm_compute. discriminate.
Qed.

(** ** SHUTDOWN *)

Section teardown.

Lemma paths_distinct :
  FIFO_REQUEST <> FIFO_RESPONSE /\ FIFO_REQUEST <> PID_FILE /\ FIFO_RESPONSE <> PID_FILE.
Proof. repeat split; discriminate. Qed.

(** The three [unlink] calls of the cleanup leave none of the three
    names behind. *)
Lemma cleanup_removes (fs : gmap string Posix.node) :
  let fs' := Posix.unlink PID_FILE
               (Posix.unlink FIFO_RESPONSE (Posix.unlink FIFO_REQUEST fs)) in
  fs' !! FIFO_REQUEST = None /\ fs' !! FIFO_RESPONSE = None /\ fs' !! PID_FILE = None.
Proof.
  destruct paths_distinct as (H1 & H2 & H3). unfold Posix.unlink. simpl.
  repeat split.
  - rewrite !lookup_delete_ne by congruence. apply lookup_delete_eq.
  - rewrite lookup_delete_ne by congruence. apply lookup_delete_eq.
  - apply lookup_delete_eq.
Qed.

Lemma not_running_without_marker
    (fs : gmap string Posix.node) (os : Posix.process_table) (uninit : Z) :
  fs !! PID_FILE = None -> is_daemon_running fs os uninit = false.
Proof. intros H. unfold is_daemon_running, Posix.exists_path. now rewrite H. Qed.

End teardown.

(** C2, as the code has it: on the request ["SHUTDOWN"] the pass writes
    the acknowledgement to the response channel when that channel opens
    (and nothing when it does not), always before leaving the loop; the
    loop is left either way, so that no later connection is served; and
    the cleanup then removes the request FIFO, the response FIFO and the
    liveness marker, after which the liveness check answers false. *)
Theorem shutdown_leaves_and_cleans
    (fs : gmap string Posix.node) (start : Z) (before after : list iteration)
    (d : daemon) (out : list string) (it : iteration)
    (os : Posix.process_table) (uninit : Z) :
  serve before (initial_daemon start) = (Waiting d, out) ->
  request_of it = Some "SHUTDOWN" ->
  let ack := if 0 <=? resp_fd it then ["Shutting down..."] else [] in
  loop_body it d = Ok (Break, d, ack)
  /\ exists fs' : gmap string Posix.node,
       daemon_main fs start (before ++ it :: after) = (Terminated, fs', (out ++ ack)%list)
       /\ fs' !! FIFO_REQUEST = None
       /\ fs' !! FIFO_RESPONSE = None
       /\ fs' !! PID_FILE = None
       /\ is_daemon_running fs' os uninit = false.
Proof.
  intros Hrun Hreq ack.
  assert (Hbody : loop_body it d = Ok (Break, d, ack)).
  { rewrite (request_of_loop_body it d _ Hreq). apply process_shutdown. }
  split; [exact Hbody|].
  unfold daemon_main.
  rewrite (serve_app before (it :: after) _ d out Hrun).
  cbn [serve]. rewrite Hbody. cbn [fst snd].
  eexists. split; [reflexivity|].
  match goal with
  | |- context [Posix.unlink PID_FILE (Posix.unlink FIFO_RESPONSE (Posix.unlink FIFO_REQUEST ?m))] =>
      destruct (cleanup_removes m) as (H1 & H2 & H3)
  end.
  repeat split; try assumption.
  now apply not_running_without_marker.
Qed.

Lemma shutdown_leaves_and_cleans_witness :
  let fs := <[PID_FILE := Posix.Regular "4242"]> ∅ in
  let shutdown := {| req_fd := 3; incoming := Some "SHUTDOWN"; now := 0; resp_fd := 4 |} in
  let status := {| req_fd := 3; incoming := Some "STATUS"; now := 0; resp_fd := 4 |} in
  exists fs' : gmap string Posix.node,
    daemon_main fs 0 [shutdown; status] = (Terminated, fs', ["Shutting down..."])
    /\ fs' !! PID_FILE = None.
Proof.
  intros fs shutdown status.
  destruct (shutdown_leaves_and_cleans fs 0 [] [status] (initial_daemon 0) [] shutdown
              {| Posix.procs := []; Posix.caller_pid := 1; Posix.caller_pgid := 1 |} 0
              eq_refl eq_refl) as (_ & fs' & Hmain & _ & _ & Hpid & _).
  exists fs'. split; [exact Hmain | exact Hpid].
Defined.

(** C2 as stated fails when the response channel does not open: the loop
    is left with nothing written. *)
Lemma shutdown_ack_dropped_without_channel :
  loop_body {| req_fd := 3; incoming := Some "SHUTDOWN"; now := 0; resp_fd := -1 |}
            (initial_daemon 0)
  = Ok (Break, initial_daemon 0, [])
  /\ snd (daemon_main ∅ 0
            [{| req_fd := 3; incoming := Some "SHUTDOWN"; now := 0; resp_fd := -1 |}])
     = [].
Proof. split; reflexivity. Qed.

(** ** SET then GET *)

Section round_trip.
Import IStream.

Lemma mem_trim_set_isspace (c : ascii) :
  isspace c = false -> mem c trim_set = false.
Proof.
  cbv [isspace trim_set mem String.append nl SP TAB LF VT FF CR].
  repeat match goal with
         | |- context [Ascii.eqb c ?x] => destruct (Ascii.eqb c x)
         end; simpl; congruence.
Qed.

(** A key without whitespace has nothing to trim. *)
Lemma rtrim_no_space (k : string) : no_space k = true -> rtrim k = k.
Proof.
  induction k as [|c k IH]; [reflexivity|]. cbn [no_space all_chars rtrim].
  intros [Hc Hk]%andb_prop. rewrite (IH Hk).
  rewrite mem_trim_set_isspace by now destruct (isspace c).
  now rewrite andb_false_r.
Qed.

(** The client's read of a non-empty response, both channels open. *)
Lemma send_request_reads (request w : string) :
  w <> "" ->
  send_request {| c_req_fd := 3; c_resp_fd := 4; c_response := Some w |} request
  = (take 1023 w, [request]).
Proof.
  intros Hne. unfold send_request, Posix.read. cbn [c_req_fd c_resp_fd c_response].
  change (3 <? 0) with false. change (4 <? 0) with false. change (1024 - 1) with 1023.
  cbv iota.
  destruct (Z.ltb_spec 0 (Z.of_nat (String.length (take 1023 w)))) as [Hpos|Hzero].
  - now rewrite take_all by lia.
  - destruct w as [|c w]; [congruence|]. simpl in Hzero. lia.
Qed.

Lemma key_chars (k : string) :
  all_chars key_char k = true ->
  no_space k = true /\ all_chars (fun c => negb (Ascii.eqb c NUL)) k = true.
Proof.
  intros H. split; apply (all_chars_weaken key_char _ k); try exact H;
    intros c [H1 H2]%andb_prop; assumption.
Qed.

Lemma value_chars (v : string) :
  all_chars value_char v = true ->
  all_chars (fun c => negb (Ascii.eqb c LF)) v = true
  /\ all_chars (fun c => negb (Ascii.eqb c NUL)) v = true.
Proof.
  intros H. split; apply (all_chars_weaken value_char _ v); try exact H;
    intros c [H1 H2]%andb_prop; assumption.
Qed.

(** One pass on a well-formed [SET k v]. *)
Lemma loop_body_set (t : Z) (k v : string) (d : daemon) :
  k <> "" -> all_chars key_char k = true -> all_chars value_char v = true ->
  Z.of_nat (String.length ("SET " +:+ k +:+ " " +:+ v)) <= 1023 ->
  loop_body {| req_fd := 3; incoming := Some ("SET " +:+ k +:+ " " +:+ v);
               now := t; resp_fd := 4 |} d
  = Ok (Continue,
        {| state := <[k := v]> (state d);
           query_count := query_count d;
           start_time := start_time d |},
        ["OK: Set " +:+ k +:+ " = " +:+ v]).
Proof.
  intros Hne Hk Hv Hlen.
  destruct (key_chars k Hk) as [Hks Hkn]. destruct (value_chars v Hv) as [Hvl Hvn].
  rewrite !length_app in Hlen. simpl String.length in Hlen.
  rewrite (request_of_loop_body _ d ("SET " +:+ k +:+ " " +:+ v)).
  - rewrite process_set by (rewrite !length_app; simpl String.length; lia).
    rewrite do_set_pair; try assumption; [reflexivity | unfold npos; lia].
  - apply request_of_payload; cbn [req_fd incoming]; try lia; try reflexivity.
    + discriminate.
    + rewrite !all_chars_app, Hkn, Hvn. reflexivity.
    + rewrite !length_app. simpl String.length. lia.
Qed.

(** One pass on [GET k] for a key without whitespace. *)
Lemma loop_body_get (t : Z) (k : string) (d : daemon) :
  all_chars key_char k = true ->
  Z.of_nat (String.length k) <= 1019 ->
  loop_body {| req_fd := 3; incoming := Some ("GET " +:+ k); now := t; resp_fd := 4 |} d
  = Ok (Continue, d, [get_reply (state d) k]).
Proof.
  intros Hk Hlen. destruct (key_chars k Hk) as [Hks Hkn].
  rewrite (request_of_loop_body _ d ("GET " +:+ k)).
  - rewrite process_get by exact Hlen. now rewrite rtrim_no_space.
  - apply request_of_payload; cbn [req_fd incoming]; try lia; try reflexivity.
    + discriminate.
    + rewrite all_chars_app, Hkn. reflexivity.
    + rewrite length_app. simpl String.length. lia.
Qed.

End round_trip.

(** C1, as the code has it: for a non-empty key [k] free of whitespace
    and NUL and a value [v] free of NUL and line feed, such that the
    request ["SET " + k + " " + v] fits the 1023 bytes the daemon reads and
    the reply ["VALUE: " + v] fits the 1023 bytes the client reads, that
    request followed by ["GET " + k] is answered with exactly
    ["VALUE: " + v], whatever the daemon held before. *)
Theorem set_then_get_round_trip (t1 t2 : Z) (k v : string) (d : daemon) :
  k <> "" ->
  all_chars key_char k = true ->
  all_chars value_char v = true ->
  Z.of_nat (String.length ("SET " +:+ k +:+ " " +:+ v)) <= 1023 ->
  Z.of_nat (String.length ("VALUE: " +:+ v)) <= 1023 ->
  set_then_get t1 t2 k v d = Some ("VALUE: " +:+ v).
Proof.
  intros Hne Hk Hv Hlen Hreply. unfold set_then_get, transact.
  rewrite (loop_body_set t1 k v d Hne Hk Hv Hlen).
  rewrite !length_app in Hlen. simpl String.length in Hlen.
  rewrite loop_body_get by (try assumption; lia).
  unfold get_reply. cbn [state]. rewrite lookup_insert_eq.
  rewrite send_request_reads by discriminate. cbn [fst].
  now rewrite take_all.
Qed.

Lemma set_then_get_round_trip_witness :
  set_then_get 0 0 "colour" "deep  blue " (initial_daemon 0) = Some "VALUE: deep  blue ".
Proof.
  apply (set_then_get_round_trip 0 0 "colour" "deep  blue " (initial_daemon 0));
    [discriminate | reflexivity | reflexivity
    | apply Z.leb_le; reflexivity | apply Z.leb_le; reflexivity].
Defined.

(** C1 as stated fails for a key with a blank in it: both strings are
    non-empty and free of control bytes, [SET] stores ["b c"] under ["a"],
    and [GET a b] finds nothing. *)
Lemma round_trip_breaks_on_blank_in_key :
  "a b" <> "" /\ "c" <> ""
  /\ no_control "a b" = true /\ no_control "c" = true
  /\ set_then_get 0 0 "a b" "c" (initial_daemon 0) = Some "ERROR: Key not found".
Proof. repeat split; try discriminate; vm_compute; reflexivity. Qed.

(** ** A request that unwinds the daemon *)

(** C3 does not hold of the code: the request ["SET k\n"] (a key followed
    directly by a line feed) makes [getline] succeed with an empty value,
    [value.substr(1)] throws [std::out_of_range], nothing catches it, and
    the daemon ends without a response and without its cleanup, the two
    FIFOs and the marker still in place. *)
Theorem set_with_line_feed_unwinds :
  let it := {| req_fd := 3; incoming := Some ("SET k" +:+ nl); now := 0; resp_fd := 4 |} in
  let fs := <[PID_FILE := Posix.Regular "4242"]> ∅ in
  request_of it = Some ("SET k" +:+ nl)
  /\ loop_body it (initial_daemon 0) = Throw out_of_range
  /\ exists fs' : gmap string Posix.node,
       daemon_main fs 0 [it] = (Aborted, fs', [])
       /\ Posix.exists_path fs' FIFO_REQUEST = true
       /\ Posix.exists_path fs' FIFO_RESPONSE = true
       /\ Posix.exists_path fs' PID_FILE = true.
Proof.
  intros it fs. split; [reflexivity|]. split; [reflexivity|].
  eexists. split; [reflexivity|]. repeat split; vm_compute; reflexivity.
Qed.

(** ** A marker that does not parse *)

(** C4 does not hold of the code: with a marker file that holds no
    number (["abc"]), the extraction stores 0 in [pid], [kill(0, 0)]
    addresses the caller's own process group and succeeds, and
    [is_daemon_running] answers true although the only process there is
    the client itself. *)
Theorem unparsable_marker_reports_running (uninit : Z) :
  let fs := <[PID_FILE := Posix.Regular "abc"]> ∅ in
  let client := {| Posix.pid := 4242; Posix.pgid := 4242; Posix.may_signal := true |} in
  let os := {| Posix.procs := [client]; Posix.caller_pid := 4242; Posix.caller_pgid := 4242 |} in
  IStream.extract_int (Posix.ifstream fs PID_FILE) uninit
  = ({| IStream.buf := "abc"; IStream.eofbit := false; IStream.failbit := true |}, 0)
  /\ is_daemon_running fs os uninit = true.
Proof. split; reflexivity. Qed.

(** * Further properties of the code *)

(** ** Which requests unwind the daemon *)

Section unwinding.
Import IStream.

Lemma skipws_starts (arg : string) (c : ascii) (s : string) :
  skipws arg = String c s -> isspace c = false.
Proof.
  induction arg as [|a arg IH]; simpl; [discriminate|].
  destruct (isspace a) eqn:Ha; [exact IH|]. now intros [= <- _].
Qed.

Lemma all_chars_skipws (p : ascii -> bool) (s : string) :
  all_chars p s = true -> all_chars p (skipws s) = true.
Proof.
  induction s as [|c s IH]; simpl; [reflexivity|].
  intros [Hc Hs]%andb_prop. destruct (isspace c); [auto|].
  simpl. now rewrite Hc, Hs.
Qed.

Lemma all_chars_token_rest (p : ascii -> bool) (s : string) :
  all_chars p s = true -> all_chars p (snd (token s)) = true.
Proof.
  induction s as [|c s IH]; simpl; [reflexivity|].
  intros [Hc Hs]%andb_prop. destruct (isspace c).
  - simpl. now rewrite Hc, Hs.
  - destruct (token s) as [t r]. simpl in *. auto.
Qed.

Lemma substr_from_1 (c : ascii) (l : string) :
  exists v : string, substr_from (String c l) 1 = Ok v.
Proof.
  unfold substr_from, substr. simpl String.length.
  destruct (Z.ltb_spec (Z.of_nat (S (String.length l))) 1); [lia | eauto].
Qed.

(** The [SET] branch throws exactly when the key is directly followed by
    a line feed. *)
Lemma do_set_throws (st : gmap string string) (arg : string) :
  do_set st arg = Throw out_of_range
  <-> exists rest : string, snd (token (skipws arg)) = String LF rest.
Proof.
  unfold do_set, extract_string. simpl.
  destruct (skipws arg) as [|c s] eqn:Hs; simpl.
  { split; [intros [=] | intros [rest [=]]]. }
  pose proof (skipws_starts arg c s Hs) as Hc. rewrite Hc.
  destruct (token s) as [t r]. simpl.
  unfold getline, good, to_bool. simpl.
  destruct r as [|c' r]; simpl.
  { split; [intros [=] | intros [rest [=]]]. }
  destruct (Ascii.eqb_spec c' LF) as [->|Hne].
  - simpl. split; [intros _; now exists r | reflexivity].
  - destruct (line r) as [l [r'|]]; simpl;
      destruct (substr_from_1 c' l) as [v ->]; cbn [mbind result_bind];
      (split; [intros [=] | intros [rest [= E]]; congruence]).
Qed.

Lemma head_is (r : string) (c1 c2 c3 c4 : ascii) :
  String.eqb (take 4 r) (String c1 (String c2 (String c3 (String c4 "")))) = true ->
  r = String c1 (String c2 (String c3 (String c4 (drop 4 r)))).
Proof.
  intros H%String.eqb_eq.
  destruct r as [|a1 [|a2 [|a3 [|a4 r]]]]; simpl in H; try discriminate.
  injection H as -> -> -> -> _. simpl. now rewrite drop_0.
Qed.

Lemma process_request_throws (it : iteration) (d : daemon) (r : string) :
  Z.of_nat (String.length r) <= 1023 ->
  process_request it d r = Throw out_of_range
  <-> exists arg rest : string,
        r = "SET " +:+ arg /\ snd (token (skipws arg)) = String LF rest.
Proof.
  intros Hlen. unfold process_request.
  destruct (String.eqb r "STATUS") eqn:Hstatus.
  { apply String.eqb_eq in Hstatus as ->.
    split; [discriminate | now intros (arg & rest & [=] & _)]. }
  rewrite substr_0. cbn [mbind result_bind].
  destruct (String.eqb (take 4 r) "SET ") eqn:Hset.
  - pose proof (head_is r _ _ _ _ Hset) as Hr.
    assert (Harg : Z.of_nat (String.length (drop 4 r)) <= 1019).
    { rewrite Hr in Hlen. simpl String.length in Hlen. lia. }
    rewrite Hr at 1. rewrite arg_of by exact Harg. cbn [mbind result_bind].
    destruct (do_set (state d) (drop 4 r)) as [[st resp]|[]] eqn:E; cbn [mbind result_bind].
    + split; [discriminate|]. intros (arg & rest & Hreq & Hlf).
      assert (arg = drop 4 r) as -> by (rewrite Hreq; simpl; now rewrite drop_0).
      assert (Hthrow : do_set (state d) (drop 4 r) = Throw out_of_range)
        by (apply do_set_throws; now exists rest).
      congruence.
    + split; [|reflexivity]. intros _.
      apply do_set_throws in E as [rest Hrest].
      exists (drop 4 r), rest. split; [exact Hr | exact Hrest].
  - assert (Hnot : ~ exists arg rest : string,
               r = "SET " +:+ arg /\ snd (token (skipws arg)) = String LF rest).
    { intros (arg & rest & -> & _). simpl in Hset. rewrite take_0 in Hset. discriminate. }
    destruct (String.eqb (take 4 r) "GET ") eqn:Hget.
    + pose proof (head_is r _ _ _ _ Hget) as Hr.
      assert (Harg : Z.of_nat (String.length (drop 4 r)) <= 1019).
      { rewrite Hr in Hlen. simpl String.length in Hlen. lia. }
      rewrite Hr at 1. rewrite arg_of by exact Harg. cbn [mbind result_bind].
      rewrite do_get_reply by (unfold npos; lia). cbn [mbind result_bind].
      split; [discriminate | intros H; now destruct Hnot].
    + destruct (String.eqb r "SHUTDOWN");
        (split; [discriminate | intros H; now destruct Hnot]).
Qed.

(** Whatever a pass writes is one response, subject to the response
    channel opening. *)
Lemma process_request_responds (it : iteration) (d d' : daemon) (r : string)
    (f : flow) (out : list string) :
  process_request it d r = Ok (f, d', out) ->
  exists response : string, out = send_response (resp_fd it) response.
Proof.
  unfold process_request.
  destruct (String.eqb r "STATUS").
  { intros [= _ _ <-]. eauto. }
  rewrite substr_0. cbn [mbind result_bind].
  destruct (String.eqb (take 4 r) "SET ").
  { destruct (substr_from r 4) as [arg|]; cbn [mbind result_bind]; [|discriminate].
    destruct (do_set (state d) arg) as [[st resp]|]; cbn [mbind result_bind]; [|discriminate].
    intros [= _ _ <-]. eauto. }
  destruct (String.eqb (take 4 r) "GET ").
  { destruct (substr_from r 4) as [arg|]; cbn [mbind result_bind]; [|discriminate].
    destruct (do_get (state d) arg) as [resp|]; cbn [mbind result_bind]; [|discriminate].
    intros [= _ _ <-]. eauto. }
  destruct (String.eqb r "SHUTDOWN"); intros [= _ _ <-]; eauto.
Qed.

End unwinding.

(** X1: a pass of the loop ends in an uncaught [std::out_of_range]
    exactly when the parsed request is ["SET "] followed by optional
    whitespace, a key, and a line feed directly after the key. *)
Theorem unwinds_exactly_on_key_line_feed (it : iteration) (d : daemon) (r : string) :
  request_of it = Some r ->
  loop_body it d = Throw out_of_range
  <-> exists arg rest : string,
        r = "SET " +:+ arg
        /\ snd (IStream.token (IStream.skipws arg)) = String LF rest.
Proof.
  intros Hreq. rewrite (request_of_loop_body it d r Hreq).
  apply process_request_throws. exact (request_of_length it r Hreq).
Qed.

Lemma unwinds_exactly_on_key_line_feed_witness :
  loop_body {| req_fd := 3; incoming := Some ("SET  colour" +:+ nl +:+ "blue");
               now := 0; resp_fd := 4 |} (initial_daemon 0)
  = Throw out_of_range.
Proof.
  apply (unwinds_exactly_on_key_line_feed
           {| req_fd := 3; incoming := Some ("SET  colour" +:+ nl +:+ "blue");
              now := 0; resp_fd := 4 |}
           (initial_daemon 0) ("SET  colour" +:+ nl +:+ "blue") eq_refl).
  exists (" colour" +:+ nl +:+ "blue"), "blue". split; reflexivity.
Defined.

(** X2: a request without a line feed in it, which is all the bundled
    client can send since it reads its lines with [std::getline], never
    unwinds the daemon: the pass ends normally and writes exactly one
    response when the response channel opens (none when it does not). *)
Theorem request_without_line_feed_is_answered (it : iteration) (d : daemon) (r : string) :
  request_of it = Some r ->
  all_chars (fun c => negb (Ascii.eqb c LF)) r = true ->
  exists (f : flow) (d' : daemon) (response : string),
    loop_body it d
    = Ok (f, d', if 0 <=? resp_fd it then [response] else []).
Proof.
  intros Hreq Hlf.
  destruct (loop_body it d) as [[[f d'] out]|[]] eqn:E.
  - rewrite (request_of_loop_body it d r Hreq) in E.
    destruct (process_request_responds it d d' r f out E) as [response ->].
    now exists f, d', response.
  - rewrite (request_of_loop_body it d r Hreq) in E.
    apply process_request_throws in E as (arg & rest & -> & Hrest);
      [|exact (request_of_length it r Hreq)].
    rewrite all_chars_app in Hlf. apply andb_prop in Hlf as [_ Hlf].
    apply all_chars_skipws in Hlf. apply all_chars_token_rest in Hlf.
    rewrite Hrest in Hlf. discriminate.
Qed.

Lemma request_without_line_feed_is_answered_witness :
  exists (f : flow) (d' : daemon) (response : string),
    loop_body {| req_fd := 3; incoming := Some "SET k"; now := 0; resp_fd := 4 |}
              (initial_daemon 0)
    = Ok (f, d', [response]).
Proof.
  apply (request_without_line_feed_is_answered
           {| req_fd := 3; incoming := Some "SET k"; now := 0; resp_fd := 4 |}
           (initial_daemon 0) "SET k"); reflexivity.
Defined.

(** ** The marker, written and read back *)

Section marker.
Import IStream.

Lemma digit_char (m : N) :
  (m < 10)%N ->
  isdigit (pretty_N_char m) = true
  /\ digit_value (pretty_N_char m) = Z.of_N m
  /\ isspace (pretty_N_char m) = false.
Proof.
  intros H.
  assert (m = 0 \/ m = 1 \/ m = 2 \/ m = 3 \/ m = 4 \/ m = 5 \/ m = 6
          \/ m = 7 \/ m = 8 \/ m = 9)%N as Hm by lia.
  repeat (destruct Hm as [-> | Hm]; [repeat split; reflexivity|]).
  subst m. repeat split; reflexivity.
Qed.

Lemma digits_cons (c : ascii) (s : string) (acc : Z) :
  isdigit c = true ->
  digits (String c s) acc
  = (let '(v, r, _) := digits s (10 * acc + digit_value c) in (v, r, true)).
Proof. intros H. simpl. now rewrite H. Qed.

(** Reading back the decimal digits [pretty_N_go] puts in front of [s]
    continues with [s] and the number read so far shifted and added. *)
Lemma digits_pretty (x : N) :
  (0 < x)%N ->
  exists k : Z, 0 <= k /\
    forall (s : string) (acc : Z),
      digits (pretty_N_go x s) acc
      = (let '(v, r, _) := digits s (acc * 10 ^ k + Z.of_N x) in (v, r, true))
      /\ exists (c : ascii) (t : string),
           pretty_N_go x s = String c t /\ isdigit c = true /\ isspace c = false.
Proof.
  induction (N.lt_wf_0 x) as [x _ IH]. intros Hx.
  destruct (digit_char (x mod 10)) as (Hd & Hv & Hsp); [now apply N.mod_lt|].
  assert (Hsplit : Z.of_N x = 10 * Z.of_N (x / 10) + Z.of_N (x mod 10)).
  { rewrite <- (N2Z.inj_mul 10), <- N2Z.inj_add. f_equal. now apply N.div_mod. }
  destruct (N.eq_dec (x / 10)%N 0%N) as [Hz | Hnz].
  - exists 1. split; [lia|]. intros s acc.
    rewrite pretty_N_go_step, Hz, pretty_N_go_0 by exact Hx.
    split; [|eauto].
    rewrite digits_cons by exact Hd. rewrite Hv, Hsplit, Hz.
    replace (acc * 10 ^ 1 + (10 * Z.of_N 0 + Z.of_N (x mod 10)))
      with (10 * acc + Z.of_N (x mod 10)) by lia.
    reflexivity.
  - destruct (IH (x / 10)%N) as (k & Hk & Hrec);
      [now apply N.div_lt | now apply N.neq_0_lt_0 |].
    exists (k + 1). split; [lia|]. intros s acc.
    rewrite pretty_N_go_step by exact Hx.
    destruct (Hrec (String (pretty_N_char (x mod 10)) s) acc) as [Hdig Hhead].
    split; [|exact Hhead].
    rewrite Hdig, digits_cons by exact Hd. rewrite Hv.
    replace (10 * (acc * 10 ^ k + Z.of_N (x / 10)) + Z.of_N (x mod 10))
      with (acc * 10 ^ (k + 1) + Z.of_N x)
      by (rewrite Z.pow_add_r by lia; lia).
    now destruct (digits s (acc * 10 ^ (k + 1) + Z.of_N x)) as [[v r] b].
Qed.

(** A field that starts with a digit has no sign to take off. *)
Lemma extract_int_unsigned (c : ascii) (t : string) (uninit : Z) :
  isdigit c = true -> isspace c = false ->
  extract_int (open_on (String c t)) uninit
  = (let '(v, r, some) := digits (String c t) 0 in
     if negb some then
       ({| buf := r; eofbit := is_empty r; failbit := true |}, 0)
     else if INT_MAX <? v then
       ({| buf := r; eofbit := is_empty r; failbit := true |}, INT_MAX)
     else if v <? INT_MIN then
       ({| buf := r; eofbit := is_empty r; failbit := true |}, INT_MIN)
     else
       ({| buf := r; eofbit := is_empty r; failbit := false |}, v)).
Proof.
  intros Hd Hsp. unfold extract_int. cbn [good open_on eofbit failbit buf negb andb].
  cbn [skipws]. rewrite Hsp. cbn [is_empty].
  destruct c as [b0 b1 b2 b3 b4 b5 b6 b7].
  destruct b0, b1, b2, b3, b4, b5, b6, b7; try discriminate Hd; reflexivity.
Qed.

(** [pid_file >> pid] reads back what [pid_file << getpid()] wrote. *)
Lemma extract_int_to_string (p uninit : Z) :
  0 < p <= INT_MAX ->
  extract_int (open_on (to_string p)) uninit
  = ({| buf := ""; eofbit := true; failbit := false |}, p).
Proof.
  intros [Hpos Hmax]. destruct p as [|q|q]; try lia.
  unfold to_string, pretty, pretty_Z, pretty, pretty_positive, pretty, pretty_N.
  destruct (decide (N.pos q = 0%N)) as [|_]; [discriminate|].
  destruct (digits_pretty (N.pos q)) as (k & Hk & Hrec); [lia|].
  destruct (Hrec "" 0) as [Hdig (c & t & Hhead & Hd & Hsp)].
  rewrite Hhead, extract_int_unsigned by assumption.
  rewrite <- Hhead, Hdig. simpl digits. cbn [negb is_empty].
  rewrite Z.mul_0_l, Z.add_0_l.
  destruct (Z.ltb_spec INT_MAX (Z.pos q)); [lia|].
  destruct (Z.ltb_spec (Z.pos q) INT_MIN); [unfold INT_MIN in *; lia|].
  reflexivity.
Qed.

End marker.

Section liveness.

Lemma kill_positive (os : Posix.process_table) (p : Z) :
  0 < p -> (Posix.kill os p 0 =? 0) = alive os p.
Proof.
  intros Hp. unfold Posix.kill, alive.
  assert (E : forall l,
    existsb (fun q => Posix.addressed os p q && Posix.may_signal q) l
    = existsb (fun q => (Posix.pid q =? p) && Posix.may_signal q) l).
  { induction l as [|q l IH]; simpl; [reflexivity|]. rewrite IH.
    unfold Posix.addressed. now destruct (Z.ltb_spec 0 p); [|lia]. }
  rewrite E. now destruct (existsb _ (Posix.procs os)).
Qed.

(** The liveness check on a marker that holds the decimal form of [p]. *)
Lemma running_on_marker (fs : gmap string Posix.node) (os : Posix.process_table)
    (uninit p : Z) :
  0 < p <= IStream.INT_MAX ->
  fs !! PID_FILE = Some (Posix.Regular (to_string p)) ->
  is_daemon_running fs os uninit = alive os p.
Proof.
  intros Hp Hfs. unfold is_daemon_running, Posix.exists_path, Posix.ifstream.
  rewrite Hfs. cbn [negb]. rewrite extract_int_to_string by exact Hp.
  apply kill_positive. lia.
Qed.

Lemma ofstream_write_lookup (fs : gmap string Posix.node) (path text : string) :
  fs !! path <> Some Posix.Fifo ->
  ofstream_write path text fs !! path = Some (Posix.Regular text).
Proof.
  intros H. unfold ofstream_write.
  destruct (fs !! path) as [[c|]|] eqn:E; try congruence; apply lookup_insert_eq.
Qed.

Lemma daemonize_detached (env : daemonize_env) (fs fs' : gmap string Posix.node) :
  daemonize env fs = Detached fs' ->
  fs' = ofstream_write PID_FILE (to_string (getpid env)) fs
  /\ fork_first env = 0 /\ 0 <= setsid_result env /\ fork_second env = 0.
Proof.
  unfold daemonize.
  destruct (Z.ltb_spec (fork_first env) 0); [discriminate|].
  destruct (Z.ltb_spec 0 (fork_first env)); [discriminate|].
  destruct (Z.ltb_spec (setsid_result env) 0); [discriminate|].
  destruct (Z.ltb_spec (fork_second env) 0); [discriminate|].
  destruct (Z.ltb_spec 0 (fork_second env)); [discriminate|].
  intros [= <-]. repeat split; lia.
Qed.

(** The channel setup and the cleanup of [daemon_main] on the three
    names, and on every other name. *)
Lemma daemon_main_paths (fs : gmap string Posix.node) (start : Z) (its : list iteration) :
  let '(life, fs', _) := daemon_main fs start its in
  (forall path : string,
     path <> FIFO_REQUEST -> path <> FIFO_RESPONSE -> path <> PID_FILE ->
     fs' !! path = fs !! path)
  /\ match life with
     | Terminated =>
         fs' !! FIFO_REQUEST = None /\ fs' !! FIFO_RESPONSE = None
         /\ fs' !! PID_FILE = None
     | _ =>
         fs' !! FIFO_REQUEST = Some Posix.Fifo
         /\ fs' !! FIFO_RESPONSE = Some Posix.Fifo
         /\ fs' !! PID_FILE = fs !! PID_FILE
     end.
Proof.
  destruct paths_distinct as (H1 & H2 & H3).
  assert (Hsetup :
    let fs1 := Posix.mkfifo FIFO_RESPONSE (Posix.mkfifo FIFO_REQUEST
                 (Posix.unlink FIFO_RESPONSE (Posix.unlink FIFO_REQUEST fs))) in
    (forall path : string,
       path <> FIFO_REQUEST -> path <> FIFO_RESPONSE -> fs1 !! path = fs !! path)
    /\ fs1 !! FIFO_REQUEST = Some Posix.Fifo
    /\ fs1 !! FIFO_RESPONSE = Some Posix.Fifo).
  { unfold Posix.mkfifo, Posix.unlink. cbn zeta.
    rewrite lookup_delete_ne, lookup_delete_eq by congruence.
    rewrite lookup_insert_ne, lookup_delete_eq by congruence.
    repeat split.
    - intros path Hp1 Hp2.
      now rewrite !lookup_insert_ne, !lookup_delete_ne by congruence.
    - rewrite lookup_insert_ne by congruence. apply lookup_insert_eq.
    - apply lookup_insert_eq. }
  unfold daemon_main.
  set (fs1 := Posix.mkfifo FIFO_RESPONSE _) in *.
  destruct Hsetup as (Hother & Hreq & Hresp).
  destruct (serve its (initial_daemon start)) as [[d|d|e] out].
  - split; [intros path ? ? ?; now apply Hother|].
    repeat split; try assumption. apply Hother; congruence.
  - destruct (cleanup_removes fs1) as (C1 & C2 & C3).
    split; [|repeat split; assumption].
    intros path Hp1 Hp2 Hp3. unfold Posix.unlink.
    rewrite !lookup_delete_ne by congruence. now apply Hother.
  - split; [intros path ? ? ?; now apply Hother|].
    repeat split; try assumption. apply Hother; congruence.
Qed.

End liveness.

(** X3: the marker [daemonize] writes is read back by the liveness
    check as the same process identifier: after a successful detach by the
    process [getpid], [is_daemon_running] answers whether the process table
    holds that process, signalable by the caller; a stale marker (no such
    process) gives false. *)
Theorem marker_round_trip
    (env : daemonize_env) (fs fs' : gmap string Posix.node)
    (os : Posix.process_table) (uninit : Z) :
  daemonize env fs = Detached fs' ->
  0 < getpid env <= IStream.INT_MAX ->
  fs !! PID_FILE <> Some Posix.Fifo ->
  is_daemon_running fs' os uninit = alive os (getpid env).
Proof.
  intros Hd Hp Hfs. apply daemonize_detached in Hd as (-> & _).
  apply running_on_marker; [exact Hp|]. now apply ofstream_write_lookup.
Qed.

Lemma marker_round_trip_witness :
  let env := {| fork_first := 0; setsid_result := 0; fork_second := 0; getpid := 31337 |} in
  let daemon := {| Posix.pid := 31337; Posix.pgid := 31337; Posix.may_signal := true |} in
  let client := {| Posix.pid := 4242; Posix.pgid := 4242; Posix.may_signal := true |} in
  let fs' := <[PID_FILE := Posix.Regular "31337"]> ∅ in
  is_daemon_running fs'
    {| Posix.procs := [client; daemon]; Posix.caller_pid := 4242; Posix.caller_pgid := 4242 |} 0
  = true
  /\ is_daemon_running fs'
       {| Posix.procs := [client]; Posix.caller_pid := 4242; Posix.caller_pgid := 4242 |} 0
     = false.
Proof.
  intros env daemon client fs'.
  assert (Hd : daemonize env ∅ = Detached fs') by reflexivity.
  assert (Hp : 0 < getpid env <= IStream.INT_MAX) by (vm_compute; split; congruence).
  assert (Hfs : (∅ : gmap string Posix.node) !! PID_FILE <> Some Posix.Fifo) by discriminate.
  split.
  - exact (marker_round_trip env ∅ fs' _ 0 Hd Hp Hfs).
  - exact (marker_round_trip env ∅ fs' _ 0 Hd Hp Hfs).
Defined.

(** X4: [daemon_main] acts on three names and no other: every path
    that is not the request FIFO, the response FIFO or the marker keeps its
    node, however the run ends; and the marker itself is as it was unless
    the loop was left through [SHUTDOWN]. *)
Theorem daemon_main_frame
    (fs : gmap string Posix.node) (start : Z) (its : list iteration) :
  let '(life, fs', _) := daemon_main fs start its in
  (forall path : string,
     path <> FIFO_REQUEST -> path <> FIFO_RESPONSE -> path <> PID_FILE ->
     fs' !! path = fs !! path)
  /\ (life <> Terminated -> fs' !! PID_FILE = fs !! PID_FILE).
Proof.
  pose proof (daemon_main_paths fs start its) as H.
  destruct (daemon_main fs start its) as [[life fs'] out].
  destruct H as [Hother Hlife]. split; [exact Hother|].
  intros Hne. destruct life; [| congruence |]; apply Hlife.
Qed.

Lemma daemon_main_frame_witness :
  let fs := <["/tmp/notes" := Posix.Regular "x"]> (<[PID_FILE := Posix.Regular "4242"]> ∅) in
  let status := {| req_fd := 3; incoming := Some "STATUS"; now := 0; resp_fd := 4 |} in
  snd (fst (daemon_main fs 0 [status])) !! "/tmp/notes" = Some (Posix.Regular "x")
  /\ snd (fst (daemon_main fs 0 [status])) !! PID_FILE = Some (Posix.Regular "4242").
Proof.
  intros fs status. pose proof (daemon_main_frame fs 0 [status]) as H.
  destruct (daemon_main fs 0 [status]) as [[life fs'] out] eqn:E.
  destruct H as [Hother Hmarker]. cbn [fst snd]. split.
  - rewrite Hother by discriminate. reflexivity.
  - rewrite Hmarker; [reflexivity|].
    vm_compute in E. injection E as <- _ _. discriminate.
Defined.

(** X5: the [--daemon] branch of [main], seen through the liveness
    check. For a process that detached under the identifier [getpid]: as
    long as its loop has not been left through [SHUTDOWN] (it is serving,
    or an exception ended it), [is_daemon_running] answers whether that
    process is still in the process table; after [SHUTDOWN] it answers
    false whatever the table holds. *)
Theorem daemon_mode_liveness
    (env : daemonize_env) (fs fs' : gmap string Posix.node) (start : Z)
    (its : list iteration) (life : lifecycle) (out : list string)
    (os : Posix.process_table) (uninit : Z) :
  daemon_mode env fs start its = Some (life, fs', out) ->
  0 < getpid env <= IStream.INT_MAX ->
  fs !! PID_FILE <> Some Posix.Fifo ->
  is_daemon_running fs' os uninit
  = match life with
    | Terminated => false
    | _ => alive os (getpid env)
    end.
Proof.
  intros Hmode Hp Hfs. unfold daemon_mode in Hmode.
  destruct (daemonize env fs) as [status | fs0] eqn:Hd; [discriminate|].
  apply daemonize_detached in Hd as (-> & _).
  pose proof (daemon_main_paths
                (ofstream_write PID_FILE (to_string (getpid env)) fs) start its) as H.
  injection Hmode as Hmode. rewrite Hmode in H. destruct H as (_ & H).
  pose proof (ofstream_write_lookup fs PID_FILE (to_string (getpid env)) Hfs) as Hw.
  destruct life.
  - destruct H as (_ & _ & H). apply running_on_marker; [exact Hp | congruence].
  - destruct H as (_ & _ & H). now apply not_running_without_marker.
  - destruct H as (_ & _ & H). apply running_on_marker; [exact Hp | congruence].
Qed.

Lemma daemon_mode_liveness_witness :
  let env := {| fork_first := 0; setsid_result := 0; fork_second := 0; getpid := 31337 |} in
  let set_ab := {| req_fd := 3; incoming := Some "SET a b"; now := 1; resp_fd := 4 |} in
  let shutdown := {| req_fd := 3; incoming := Some "SHUTDOWN"; now := 2; resp_fd := 4 |} in
  let daemon := {| Posix.pid := 31337; Posix.pgid := 31337; Posix.may_signal := true |} in
  let os := {| Posix.procs := [daemon]; Posix.caller_pid := 4242; Posix.caller_pgid := 4242 |} in
  (exists fs', daemon_mode env ∅ 0 [set_ab] = Some (Serving, fs', ["OK: Set a = b"])
               /\ is_daemon_running fs' os 0 = true)
  /\ (exists fs', daemon_mode env ∅ 0 [set_ab; shutdown]
                  = Some (Terminated, fs', ["OK: Set a = b"; "Shutting down..."])
                  /\ is_daemon_running fs' os 0 = false).
Proof.
  intros env set_ab shutdown daemon os.
  assert (Hp : 0 < getpid env <= IStream.INT_MAX) by (vm_compute; split; congruence).
  assert (Hfs : (∅ : gmap string Posix.node) !! PID_FILE <> Some Posix.Fifo) by discriminate.
  split.
  - eexists. split; [vm_compute; reflexivity|].
    refine (daemon_mode_liveness env ∅ _ 0 [set_ab] Serving _ os 0 _ Hp Hfs).
    vm_compute. reflexivity.
  - eexists. split; [vm_compute; reflexivity|].
    refine (daemon_mode_liveness env ∅ _ 0 [set_ab; shutdown] Terminated _ os 0 _ Hp Hfs).
    vm_compute. reflexivity.
Defined.

(** X6: the launch gate of [main]. A client that starts while a detached
    daemon (identifier [getpid]) has not left its loop through [SHUTDOWN]
    starts no second daemon if that process is in the process table,
    whatever [fork] would have returned; if the process is gone (a stale
    marker) it forks, the child becoming the daemon. *)
Theorem launch_gate
    (env : daemonize_env) (fs fs' : gmap string Posix.node) (start : Z)
    (its : list iteration) (life : lifecycle) (out : list string)
    (os : Posix.process_table) (uninit fork_result : Z) :
  daemon_mode env fs start its = Some (life, fs', out) ->
  life <> Terminated ->
  0 < getpid env <= IStream.INT_MAX ->
  fs !! PID_FILE <> Some Posix.Fifo ->
  launch_daemon fs' os uninit fork_result
  = if alive os (getpid env) then NoLaunch
    else if fork_result =? 0 then ExecDaemon
    else if 0 <? fork_result then WaitForDaemon
    else ForkFailed.
Proof.
  intros Hmode Hlife Hp Hfs. unfold launch_daemon.
  assert (Hrun : is_daemon_running fs' os uninit = alive os (getpid env)).
  { pose proof (running_on_marker fs' os uninit (getpid env) Hp) as Hr.
    apply Hr. unfold daemon_mode in Hmode.
    destruct (daemonize env fs) as [status | fs0] eqn:Hd; [discriminate|].
    apply daemonize_detached in Hd as (-> & _).
    pose proof (daemon_main_paths
                  (ofstream_write PID_FILE (to_string (getpid env)) fs) start its) as H.
    injection Hmode as Hmode. rewrite Hmode in H. destruct H as (_ & H).
    pose proof (ofstream_write_lookup fs PID_FILE (to_string (getpid env)) Hfs) as Hw.
    destruct life; [|congruence|]; destruct H as (_ & _ & H); congruence. }
  rewrite Hrun. now destruct (alive os (getpid env)).
Qed.

Lemma launch_gate_witness :
  let env := {| fork_first := 0; setsid_result := 0; fork_second := 0; getpid := 31337 |} in
  let daemon := {| Posix.pid := 31337; Posix.pgid := 31337; Posix.may_signal := true |} in
  let client := {| Posix.pid := 4242; Posix.pgid := 4242; Posix.may_signal := true |} in
  let fs' := <[FIFO_RESPONSE := Posix.Fifo]>
               (<[FIFO_REQUEST := Posix.Fifo]> (<[PID_FILE := Posix.Regular "31337"]> ∅)) in
  launch_daemon fs'
    {| Posix.procs := [client; daemon]; Posix.caller_pid := 4242; Posix.caller_pgid := 4242 |}
    0 4243
  = NoLaunch
  /\ launch_daemon fs'
       {| Posix.procs := [client]; Posix.caller_pid := 4242; Posix.caller_pgid := 4242 |}
       0 4243
     = WaitForDaemon.
Proof.
  intros env daemon client fs'.
  assert (Hm : daemon_mode env ∅ 0 [] = Some (Serving, fs', [])) by (vm_compute; reflexivity).
  assert (Hl : Serving <> Terminated) by discriminate.
  assert (Hp : 0 < getpid env <= IStream.INT_MAX) by (vm_compute; split; congruence).
  assert (Hfs : (∅ : gmap string Posix.node) !! PID_FILE <> Some Posix.Fifo) by discriminate.
  split.
  - exact (launch_gate env ∅ fs' 0 [] Serving [] _ 0 4243 Hm Hl Hp Hfs).
  - exact (launch_gate env ∅ fs' 0 [] Serving [] _ 0 4243 Hm Hl Hp Hfs).
Defined.

(** ** The store across requests *)

Section store.

Lemma loop_body_keeps_keys (it : iteration) (d d' : daemon) (f : flow)
    (out : list string) (key : string) :
  loop_body it d = Ok (f, d', out) ->
  is_Some (state d !! key) -> is_Some (state d' !! key).
Proof.
  intros Hstep Hkey.
  destruct (loop_body_effect it d d' f out Hstep) as (_ & _ & [-> | (k & v & _ & ->)]).
  - exact Hkey.
  - apply lookup_insert_is_Some'. now right.
Qed.

Lemma loop_body_size (it : iteration) (d d' : daemon) (f : flow) (out : list string) :
  loop_body it d = Ok (f, d', out) ->
  (size (state d) <= size (state d'))%nat.
Proof.
  intros Hstep.
  destruct (loop_body_effect it d d' f out Hstep) as (_ & _ & [-> | (k & v & _ & ->)]).
  - lia.
  - rewrite map_size_insert. destruct (state d !! k); unfold id; lia.
Qed.

Lemma serve_size (its : list iteration) : forall (d d' : daemon) (out : list string),
  serve its d = (Waiting d', out) ->
  (size (state d) <= size (state d'))%nat.
Proof.
  induction its as [|it its IH]; intros d d' out; simpl.
  - intros [= <- _]. lia.
  - destruct (loop_body it d) as [[[[] d1] o1]|e] eqn:Hstep; try discriminate.
    destruct (serve its d1) as [e1 o2] eqn:E1. intros [= -> _].
    pose proof (loop_body_size it d d1 _ _ Hstep).
    pose proof (IH d1 d' o2 E1). lia.
Qed.

End store.

(** X7: no request removes a key. Whatever connections the loop serves,
    a key bound before is bound after (under the same or a newer value), as
    long as the daemon is not unwound by an exception. *)
Theorem keys_never_removed (its : list iteration) : forall (d : daemon) (key : string),
  is_Some (state d !! key) ->
  match fst (serve its d) with
  | Waiting d' | Left d' => is_Some (state d' !! key)
  | Unwound _ => True
  end.
Proof.
  induction its as [|it its IH]; intros d key Hkey; simpl; [exact Hkey|].
  destruct (loop_body it d) as [[[[] d1] o1]|e] eqn:Hstep; simpl; [| |exact I].
  - pose proof (loop_body_keeps_keys it d d1 _ _ key Hstep Hkey) as H1.
    specialize (IH d1 key H1). now destruct (serve its d1).
  - exact (loop_body_keeps_keys it d d1 _ _ key Hstep Hkey).
Qed.

Lemma keys_never_removed_witness :
  match fst (serve [{| req_fd := 3; incoming := Some "SET version 2.0"; now := 0; resp_fd := 4 |};
                    {| req_fd := 3; incoming := Some "SET a b"; now := 0; resp_fd := 4 |}]
               (initial_daemon 0)) with
  | Waiting d' | Left d' => is_Some (state d' !! "version")
  | Unwound _ => True
  end.
Proof.
  apply (keys_never_removed
           [{| req_fd := 3; incoming := Some "SET version 2.0"; now := 0; resp_fd := 4 |};
            {| req_fd := 3; incoming := Some "SET a b"; now := 0; resp_fd := 4 |}]
           (initial_daemon 0) "version").
  exists "1.0". reflexivity.
Defined.

(** X8: overwrite. Two SETs of the same key followed by a GET are
    answered, in this order, with the two confirmations and the second
    value; the store ends with the key bound to the second value only. *)
Theorem second_set_wins (t1 t2 t3 : Z) (k v1 v2 : string) (d : daemon) :
  k <> "" ->
  all_chars key_char k = true ->
  all_chars value_char v1 = true ->
  all_chars value_char v2 = true ->
  Z.of_nat (String.length ("SET " +:+ k +:+ " " +:+ v1)) <= 1023 ->
  Z.of_nat (String.length ("SET " +:+ k +:+ " " +:+ v2)) <= 1023 ->
  serve [{| req_fd := 3; incoming := Some ("SET " +:+ k +:+ " " +:+ v1); now := t1; resp_fd := 4 |};
         {| req_fd := 3; incoming := Some ("SET " +:+ k +:+ " " +:+ v2); now := t2; resp_fd := 4 |};
         {| req_fd := 3; incoming := Some ("GET " +:+ k); now := t3; resp_fd := 4 |}] d
  = (Waiting {| state := <[k := v2]> (state d);
                query_count := query_count d;
                start_time := start_time d |},
     ["OK: Set " +:+ k +:+ " = " +:+ v1;
      "OK: Set " +:+ k +:+ " = " +:+ v2;
      "VALUE: " +:+ v2]).
Proof.
  intros Hne Hk Hv1 Hv2 Hl1 Hl2. cbn [serve].
  rewrite (loop_body_set t1 k v1 d Hne Hk Hv1 Hl1).
  rewrite (loop_body_set t2 k v2 _ Hne Hk Hv2 Hl2). cbn [state query_count start_time].
  rewrite !length_app in Hl1. simpl String.length in Hl1.
  rewrite loop_body_get by (try assumption; lia).
  unfold get_reply. cbn [state]. rewrite insert_insert_eq, lookup_insert_eq.
  reflexivity.
Qed.

Lemma second_set_wins_witness :
  serve [{| req_fd := 3; incoming := Some "SET a 1"; now := 0; resp_fd := 4 |};
         {| req_fd := 3; incoming := Some "SET a 2"; now := 0; resp_fd := 4 |};
         {| req_fd := 3; incoming := Some "GET a"; now := 0; resp_fd := 4 |}]
        (initial_daemon 0)
  = (Waiting {| state := <["a" := "2"]> (state (initial_daemon 0));
                query_count := 0;
                start_time := 0 |},
     ["OK: Set a = 1"; "OK: Set a = 2"; "VALUE: 2"]).
Proof.
  apply (second_set_wins 0 0 0 "a" "1" "2" (initial_daemon 0));
    try reflexivity; try discriminate; apply Z.leb_le; reflexivity.
Defined.

(** X9: a SET leaves every other key alone. After a well-formed
    [SET k v], a GET whose trimmed key is not [k] is answered exactly as it
    was before the SET. *)
Theorem set_leaves_other_keys (t : Z) (k v : string) (d : daemon) :
  k <> "" ->
  all_chars key_char k = true ->
  all_chars value_char v = true ->
  Z.of_nat (String.length ("SET " +:+ k +:+ " " +:+ v)) <= 1023 ->
  exists (d1 : daemon) (out : list string),
    loop_body {| req_fd := 3; incoming := Some ("SET " +:+ k +:+ " " +:+ v);
                 now := t; resp_fd := 4 |} d
    = Ok (Continue, d1, out)
    /\ forall (it : iteration) (raw : string),
         request_of it = Some ("GET " +:+ raw) -> rtrim raw <> k ->
         exists reply : string,
           loop_body it d = Ok (Continue, d, send_response (resp_fd it) reply)
           /\ loop_body it d1 = Ok (Continue, d1, send_response (resp_fd it) reply).
Proof.
  intros Hne Hk Hv Hlen.
  eexists _, _. split; [exact (loop_body_set t k v d Hne Hk Hv Hlen)|].
  intros it raw Hreq Hother.
  pose proof (length_tail "GET " raw _ 1023 eq_refl (request_of_length it _ Hreq)) as Hraw.
  exists (get_reply (state d) (rtrim raw)).
  rewrite !(request_of_loop_body it _ _ Hreq).
  rewrite !process_get by (simpl in Hraw; lia).
  split; [reflexivity|]. unfold get_reply. cbn [state].
  now rewrite lookup_insert_ne by congruence.
Qed.

Lemma set_leaves_other_keys_witness :
  exists (d1 : daemon) (out : list string),
    loop_body {| req_fd := 3; incoming := Some "SET a b"; now := 0; resp_fd := 4 |}
              (initial_daemon 0)
    = Ok (Continue, d1, out)
    /\ loop_body {| req_fd := 3; incoming := Some "GET version"; now := 0; resp_fd := 4 |} d1
       = Ok (Continue, d1, ["VALUE: 1.0"]).
Proof.
  destruct (set_leaves_other_keys 0 "a" "b" (initial_daemon 0))
    as (d1 & out & Hset & Hget);
    [discriminate | reflexivity | reflexivity | apply Z.leb_le; reflexivity |].
  exists d1, out. split; [exact Hset|].
  destruct (Hget {| req_fd := 3; incoming := Some "GET version"; now := 0; resp_fd := 4 |}
              "version" eq_refl) as (reply & Hbefore & Hafter); [discriminate|].
  rewrite Hafter. injection Hbefore as <-. reflexivity.
Defined.

(** ** STATUS over time *)

Section status_facts.

Lemma count_passes_app (p : iteration -> bool) (a b : list iteration) :
  count_passes p (a ++ b) = count_passes p a + count_passes p b.
Proof. induction a as [|it a IH]; simpl; [reflexivity|]. rewrite IH. lia. Qed.

Lemma is_status_request (it : iteration) :
  request_of it = Some "STATUS" -> is_status it = true.
Proof. intros H. unfold is_status. now rewrite H. Qed.

(** The STATUS response in a state the loop reaches from the start. *)
Lemma status_after (start : Z) (its : list iteration) (d : daemon)
    (out : list string) (it : iteration) :
  serve its (initial_daemon start) = (Waiting d, out) ->
  request_of it = Some "STATUS" ->
  status_requests its + 1 < 2 ^ 31 ->
  exists d' : daemon,
    loop_body it d
    = Ok (Continue, d',
          send_response (resp_fd it)
            (status_report (status_requests its + 1)
               (Z.quot (now it - start) 1000000000)
               (Z.of_nat (size (state d))))).
Proof.
  intros Hrun Hreq Hfit.
  pose proof (count_passes_nonneg is_status its) as Hnn. fold (status_requests its) in Hnn.
  destruct (serve_counter its _ d out Hrun) as [Hq Hs]; simpl; [lia | lia |].
  simpl in Hq, Hs.
  rewrite (request_of_loop_body it d _ Hreq), process_status.
  rewrite Hq, Hs, int_wrap_small by lia. eauto.
Qed.

End status_facts.

(** X10: STATUS is monotonic. Of two STATUS requests served by the same
    daemon, the later one at a clock reading not before the earlier, the
    later response reports a strictly larger [Queries] value, an [Uptime]
    that is not smaller and a [State entries] count that is not smaller,
    whatever requests came in between (while the count fits an [int]). *)
Theorem status_is_monotonic
    (start : Z) (its mid : list iteration) (s1 s2 : iteration)
    (d1 d2 : daemon) (o1 o2 : list string) :
  serve its (initial_daemon start) = (Waiting d1, o1) ->
  serve (its ++ s1 :: mid) (initial_daemon start) = (Waiting d2, o2) ->
  request_of s1 = Some "STATUS" ->
  request_of s2 = Some "STATUS" ->
  now s1 <= now s2 ->
  status_requests (its ++ s1 :: mid) + 1 < 2 ^ 31 ->
  exists (q1 u1 e1 q2 u2 e2 : Z) (d1' d2' : daemon),
    loop_body s1 d1
    = Ok (Continue, d1', send_response (resp_fd s1) (status_report q1 u1 e1))
    /\ loop_body s2 d2
       = Ok (Continue, d2', send_response (resp_fd s2) (status_report q2 u2 e2))
    /\ q1 < q2 /\ u1 <= u2 /\ e1 <= e2.
Proof.
  intros Hrun1 Hrun2 Hreq1 Hreq2 Hclock Hfit.
  assert (Hcount : status_requests (its ++ s1 :: mid)
                   = status_requests its + 1 + status_requests mid).
  { unfold status_requests. rewrite count_passes_app. simpl.
    rewrite (is_status_request s1 Hreq1). lia. }
  pose proof (count_passes_nonneg is_status mid) as Hmid. fold (status_requests mid) in Hmid.
  destruct (status_after start its d1 o1 s1 Hrun1 Hreq1) as [d1' H1]; [lia|].
  destruct (status_after start _ d2 o2 s2 Hrun2 Hreq2 Hfit) as [d2' H2].
  do 6 eexists. exists d1', d2'.
  split; [exact H1|]. split; [exact H2|].
  split; [lia|]. split.
  - apply Z.quot_le_mono; lia.
  - rewrite (serve_app its (s1 :: mid) _ d1 o1 Hrun1) in Hrun2.
    destruct (serve (s1 :: mid) d1) as [e o] eqn:E. simpl in Hrun2.
    injection Hrun2 as -> _.
    pose proof (serve_size _ _ _ _ E). lia.
Qed.

Lemma status_is_monotonic_witness :
  let status1 := {| req_fd := 3; incoming := Some "STATUS"; now := 2500000000; resp_fd := 4 |} in
  let set_ab := {| req_fd := 3; incoming := Some "SET a b"; now := 3000000000; resp_fd := 4 |} in
  let status2 := {| req_fd := 3; incoming := Some "STATUS"; now := 9000000000; resp_fd := 4 |} in
  exists (q1 u1 e1 q2 u2 e2 : Z) (d1' d2' : daemon),
    loop_body status1 (initial_daemon 1000000000)
    = Ok (Continue, d1', [status_report q1 u1 e1])
    /\ loop_body status2 {| state := <["a" := "b"]> (state (initial_daemon 0));
                            query_count := 1; start_time := 1000000000 |}
       = Ok (Continue, d2', [status_report q2 u2 e2])
    /\ q1 < q2 /\ u1 <= u2 /\ e1 <= e2.
Proof.
  intros status1 set_ab status2.
  refine (status_is_monotonic 1000000000 [] [set_ab] status1 status2
            (initial_daemon 1000000000)
            {| state := <["a" := "b"]> (state (initial_daemon 0));
               query_count := 1; start_time := 1000000000 |}
            [] [status_report 1 1 2; "OK: Set a = b"] _ _ _ _ _ _);
    try (vm_compute; reflexivity); vm_compute; congruence.
Defined.

(** ** The interactive loop of the client *)

(** X11: what the interactive loop sends. Every payload it writes to the
    request channel is one of the lines it read, is not empty, and is
    neither ["EXIT"] nor ["exit"]; and ["SHUTDOWN"] can only be the last
    payload: nothing is sent after it. *)
Theorem client_loop_sends (input : list (string * client_env)) :
  let sent := snd (client_loop input) in
  Forall (fun r => r <> "" /\ r <> "EXIT" /\ r <> "exit"
                   /\ exists env, In (r, env) input) sent
  /\ forall before after : list string,
       sent = (before ++ "SHUTDOWN" :: after)%list -> after = [].
Proof.
  induction input as [|[line env] rest [IH1 IH2]]; cbn [client_loop].
  { split; [constructor|]. intros [|] after; discriminate. }
  destruct (String.eqb line "EXIT") eqn:E1; cbn [orb].
  { split; [constructor|]. intros [|] after; discriminate. }
  destruct (String.eqb line "exit") eqn:E2.
  { split; [constructor|]. intros [|] after; discriminate. }
  assert (Hweak : Forall (fun r => r <> "" /\ r <> "EXIT" /\ r <> "exit"
                                   /\ exists env0, In (r, env0) ((line, env) :: rest))
                    (snd (client_loop rest))).
  { eapply Forall_impl; [exact IH1|]. simpl.
    intros r (? & ? & ? & env0 & ?). repeat split; eauto. }
  destruct (IStream.is_empty line) eqn:E3.
  { destruct (client_loop rest) as [printed sent]. now split. }
  assert (Hline : line <> "" /\ line <> "EXIT" /\ line <> "exit"
                  /\ exists env0, In (line, env0) ((line, env) :: rest)).
  { apply String.eqb_neq in E1. apply String.eqb_neq in E2.
    repeat split; try assumption; [now destruct line | exists env; now left]. }
  assert (Hwritten : snd (send_request env line) = [] \/ snd (send_request env line) = [line]).
  { unfold send_request. destruct (c_req_fd env <? 0); [now left|].
    destruct (c_resp_fd env <? 0); [now right|].
    destruct (Posix.read (c_response env) (1024 - 1)) as [bytes buffer].
    destruct (0 <? bytes); now right. }
  destruct (send_request env line) as [response written]. cbn [snd] in Hwritten.
  destruct (String.eqb line "SHUTDOWN") eqn:E4; cbn [snd].
  - split.
    + destruct Hwritten as [-> | ->]; repeat constructor; apply Hline.
    + intros before after Heq.
      destruct Hwritten as [-> | ->]; destruct before as [|b [|b' before]];
        try discriminate; now injection Heq.
  - destruct (client_loop rest) as [printed sent]. cbn [snd] in *.
    apply String.eqb_neq in E4. split.
    + destruct Hwritten as [-> | ->]; [exact Hweak|]. constructor; assumption.
    + intros before after Heq. destruct Hwritten as [-> | ->].
      * exact (IH2 before after Heq).
      * destruct before as [|b before]; injection Heq as Hb Heq; [congruence|].
        exact (IH2 before after Heq).
Qed.

(** ** Bounds of the client call *)

(** X12: the string [send_request] returns is never empty and never
    longer than the 1023 bytes its buffer takes: the caller always has
    something to print, an answer or one of the three error strings. *)
Theorem send_request_bounded (env : client_env) (request : string) :
  0 < Z.of_nat (String.length (fst (send_request env request))) <= 1023.
Proof.
  unfold send_request.
  destruct (c_req_fd env <? 0); [simpl; lia|].
  destruct (c_resp_fd env <? 0); [simpl; lia|].
  unfold Posix.read. destruct (c_response env) as [w|]; [|simpl; lia].
  destruct (Z.ltb_spec 0 (Z.of_nat (String.length (take (1024 - 1) w))));
    [|simpl; lia].
  cbn [fst]. rewrite take_all by lia.
  pose proof (take_length w (1024 - 1)). lia.
Qed.

(** ** NUL in a request *)

Section nul.

Lemma c_str_take_app (p q : string) : forall n : Z,
  all_chars (fun c => negb (Ascii.eqb c NUL)) p = true ->
  Z.of_nat (String.length p) <= n ->
  c_str (take n (p +:+ String NUL q)) = p.
Proof.
  induction p as [|c p IH]; intros n Hnul Hlen.
  - change ("" +:+ String NUL q) with (String NUL q). simpl.
    now destruct (n <=? 0).
  - rewrite append_cons. simpl in *.
    apply andb_prop in Hnul as [Hc Hp].
    destruct (Z.leb_spec n 0); [lia|]. simpl.
    destruct (Ascii.eqb c NUL); [discriminate|].
    f_equal. apply IH; [exact Hp | lia].
Qed.

Lemma request_of_cut (fd t rfd : Z) (p q : string) :
  0 <= fd -> p <> "" ->
  all_chars (fun c => negb (Ascii.eqb c NUL)) p = true ->
  Z.of_nat (String.length p) <= 1023 ->
  request_of {| req_fd := fd; incoming := Some (p +:+ String NUL q); now := t; resp_fd := rfd |}
  = Some p.
Proof.
  intros Hfd Hne Hnul Hlen. unfold request_of, Posix.read. cbn [req_fd incoming].
  destruct (Z.ltb_spec fd 0); [lia|]. change (1024 - 1) with 1023.
  rewrite c_str_take_app by assumption.
  destruct p as [|c p]; [congruence|]. rewrite append_cons. simpl take.
  simpl String.length. destruct (Z.leb_spec (Z.of_nat (S (String.length
    (take (1023 - 1) (p +:+ String NUL q))))) 0); [lia | reflexivity].
Qed.

End nul.

(** X13: a NUL cuts the request. The daemon builds the request from a
    NUL-terminated buffer, so a payload [p] followed by a NUL and anything
    else is processed exactly as [p] alone ([p] not empty, free of NUL and
    within the buffer): same response, same new state. *)
Theorem nul_cuts_the_request (fd t rfd : Z) (p q : string) (d : daemon) :
  p <> "" ->
  all_chars (fun c => negb (Ascii.eqb c NUL)) p = true ->
  Z.of_nat (String.length p) <= 1023 ->
  loop_body {| req_fd := fd; incoming := Some (p +:+ String NUL q); now := t; resp_fd := rfd |} d
  = loop_body {| req_fd := fd; incoming := Some p; now := t; resp_fd := rfd |} d.
Proof.
  intros Hne Hnul Hlen.
  destruct (Z.ltb_spec fd 0) as [Hneg | Hfd].
  - unfold loop_body. cbn [req_fd].
    now destruct (Z.ltb_spec fd 0); [|lia].
  - rewrite (request_of_loop_body _ d p (request_of_cut fd t rfd p q Hfd Hne Hnul Hlen)).
    rewrite (request_of_loop_body _ d p).
    + reflexivity.
    + now apply request_of_payload.
Qed.

Lemma nul_cuts_the_request_witness :
  loop_body {| req_fd := 3; incoming := Some ("STATUS" +:+ String NUL "junk");
               now := 0; resp_fd := 4 |} (initial_daemon 0)
  = loop_body {| req_fd := 3; incoming := Some "STATUS"; now := 0; resp_fd := 4 |}
              (initial_daemon 0).
Proof.
  apply (nul_cuts_the_request 3 0 4 "STATUS" "junk" (initial_daemon 0));
    [discriminate | reflexivity | apply Z.leb_le; reflexivity].
Defined.

(** ** Exact keywords, and effects without a reader *)

(** X14: [STATUS] and [SHUTDOWN] are matched as whole requests. With
    anything after the keyword, a blank or the line feed of a shell [echo]
    included, the request is answered with the unknown-command error, the
    daemon's locals stay as they are and the loop goes on. *)
Theorem keyword_with_suffix_is_unknown (it : iteration) (d : daemon) (suffix : string) :
  suffix <> "" ->
  request_of it = Some ("STATUS" +:+ suffix)
  \/ request_of it = Some ("SHUTDOWN" +:+ suffix) ->
  loop_body it d = Ok (Continue, d, send_response (resp_fd it) unknown_command).
Proof.
  intros Hne [Hreq | Hreq]; rewrite (request_of_loop_body it d _ Hreq);
    destruct suffix as [|c s]; try congruence; reflexivity.
Qed.

Lemma keyword_with_suffix_is_unknown_witness :
  loop_body {| req_fd := 3; incoming := Some ("STATUS" +:+ nl); now := 0; resp_fd := 4 |}
            (initial_daemon 0)
  = Ok (Continue, initial_daemon 0, [unknown_command]).
Proof.
  apply (keyword_with_suffix_is_unknown
           {| req_fd := 3; incoming := Some ("STATUS" +:+ nl); now := 0; resp_fd := 4 |}
           (initial_daemon 0) nl); [discriminate | left; reflexivity].
Defined.

(** X15: the response channel has no say in what a request does. With
    the same request at the same clock reading, the loop goes on or stops
    and the daemon's locals change in the same way whether or not the
    response channel opens: a SET is applied, and a SHUTDOWN obeyed, even
    when the answer cannot be delivered; and when the channel does not
    open, nothing is written. *)
Theorem effect_independent_of_reader
    (fd : Z) (w : option string) (t rfd1 rfd2 : Z) (d : daemon) :
  effect_of (loop_body {| req_fd := fd; incoming := w; now := t; resp_fd := rfd1 |} d)
  = effect_of (loop_body {| req_fd := fd; incoming := w; now := t; resp_fd := rfd2 |} d)
  /\ (rfd1 < 0 ->
      forall f d' out,
        loop_body {| req_fd := fd; incoming := w; now := t; resp_fd := rfd1 |} d
        = Ok (f, d', out) -> out = []).
Proof.
  split.
  - unfold loop_body. cbn [req_fd incoming].
    destruct (fd <? 0); [reflexivity|].
    destruct (Posix.read w (1024 - 1)) as [bytes buffer].
    destruct (bytes <=? 0); [reflexivity|].
    unfold process_request. cbn [now resp_fd].
    destruct (String.eqb (c_str buffer) "STATUS"); [reflexivity|].
    rewrite substr_0. cbn [mbind result_bind].
    destruct (String.eqb (take 4 (c_str buffer)) "SET ").
    { destruct (substr_from (c_str buffer) 4) as [arg|]; cbn [mbind result_bind];
        [|reflexivity].
      destruct (do_set (state d) arg) as [[st resp]|]; reflexivity. }
    destruct (String.eqb (take 4 (c_str buffer)) "GET ").
    { destruct (substr_from (c_str buffer) 4) as [arg|]; cbn [mbind result_bind];
        [|reflexivity].
      destruct (do_get (state d) arg) as [resp|]; reflexivity. }
    destruct (String.eqb (c_str buffer) "SHUTDOWN"); reflexivity.
  - intros Hneg f d' out Hstep.
    destruct (request_of {| req_fd := fd; incoming := w; now := t; resp_fd := rfd1 |})
      as [r|] eqn:Hreq.
    + rewrite (request_of_loop_body _ d r Hreq) in Hstep.
      destruct (process_request_responds _ d d' r f out Hstep) as [response ->].
      unfold send_response. cbn [resp_fd].
      now destruct (Z.leb_spec 0 rfd1); [lia|].
    + rewrite (request_of_none _ d Hreq) in Hstep. now injection Hstep as _ _ <-.
Qed.

Lemma effect_independent_of_reader_witness :
  effect_of (loop_body {| req_fd := 3; incoming := Some "SET a b"; now := 0; resp_fd := -1 |}
                       (initial_daemon 0))
  = effect_of (loop_body {| req_fd := 3; incoming := Some "SET a b"; now := 0; resp_fd := 4 |}
                         (initial_daemon 0))
  /\ loop_body {| req_fd := 3; incoming := Some "SET a b"; now := 0; resp_fd := -1 |}
               (initial_daemon 0)
     = Ok (Continue,
           {| state := <["a" := "b"]> (state (initial_daemon 0));
              query_count := 0; start_time := 0 |},
           []).
Proof.
  destruct (effect_independent_of_reader 3 (Some "SET a b") 0 (-1) 4 (initial_daemon 0))
    as [Hsame Hnone].
  split; [exact Hsame|].
  destruct (loop_body {| req_fd := 3; incoming := Some "SET a b"; now := 0; resp_fd := -1 |}
              (initial_daemon 0)) as [[[f d'] out]|e] eqn:E.
  - rewrite (Hnone ltac:(lia) f d' out eq_refl).
    vm_compute in E. injection E as <- <- _. vm_compute. reflexivity.
  - vm_compute in E. discriminate.
Defined.
